(** * Bronze-layer call-report import: a shallow embedding of [import_bronze.py]

    The development follows the layout of the script: Python strings and
    values, the configuration constants, the quarter utilities, the row
    projector of [ingest_file], the column reconciler [ensure_columns], the
    batch upsert loop, [import_quarter] and the period loop of [main].

    Effects (RPC calls to the storage backend, the archive download, prints,
    the settle delay, exceptions) are threaded through a small state and
    exception monad over a world that carries the backend state and the log
    of every externally visible action. *)

From Stdlib Require Import ZArith Ascii DecimalString.
From Equations Require Import Equations.
From stdpp Require Import gmap strings list fin_maps.

Local Open Scope Z_scope.

(* ===================================================================== *)
(** ** Python strings *)
(* ===================================================================== *)

(** A Python [str] is modelled as a Rocq [string], one [ascii] per character
    (code points below 256).  [is_space] is [str.isspace] on that range, the
    class that [str.strip()] removes. *)
Module PyStr.

Definition code (a : Ascii.ascii) : nat := Ascii.nat_of_ascii a.

Definition is_space (a : Ascii.ascii) : bool :=
  let n := code a in
  ((9 <=? n) && (n <=? 13) || (28 <=? n) && (n <=? 32)
   || (n =? 133) || (n =? 160))%nat.

Fixpoint lstrip (s : string) : string :=
  match s with
  | EmptyString => EmptyString
  | String a s' => if is_space a then lstrip s' else s
  end.

Fixpoint rstrip (s : string) : string :=
  match s with
  | EmptyString => EmptyString
  | String a s' =>
      match rstrip s' with
      | EmptyString => if is_space a then EmptyString else String a EmptyString
      | r => String a r
      end
  end.

(** [s.strip()] *)
Definition strip (s : string) : string := rstrip (lstrip s).

(** every character of [s] is whitespace *)
Fixpoint blank (s : string) : bool :=
  match s with
  | EmptyString => true
  | String a s' => is_space a && blank s'
  end.

(** [\d] on the modelled range *)
Definition is_digit (a : Ascii.ascii) : bool :=
  ((48 <=? code a) && (code a <=? 57))%nat.

Definition digit_val (a : Ascii.ascii) : Z := Z.of_nat (code a) - 48.

(** [str(n)] / [f"{n}"] for an [int] *)
Definition of_int (n : Z) : string := NilZero.string_of_int (Z.to_int n).

Definition dquote : string := String (Ascii.ascii_of_nat 34) EmptyString.
Definition newline : string := String (Ascii.ascii_of_nat 10) EmptyString.

End PyStr.

(* ===================================================================== *)
(** ** Config *)
(* ===================================================================== *)

Definition NCUA_BASE_URL : string :=
  "https://www.ncua.gov/files/publications/analysis".

Definition QUARTER_MONTH (quarter : Z) : option string :=
  if decide (quarter = 1) then Some "03"
  else if decide (quarter = 2) then Some "06"
  else if decide (quarter = 3) then Some "09"
  else if decide (quarter = 4) then Some "12"
  else None.

(** The dict keeps insertion order; [.items()] walks it in this order. *)
Definition SOURCE_FILES : list (string * string) :=
  [ ("FOICU.txt", "bronze_foicu");
    ("FS220.txt", "bronze_fs220");
    ("FS220A.txt", "bronze_fs220a");
    ("FS220B.txt", "bronze_fs220b");
    ("FS220C.txt", "bronze_fs220c");
    ("FS220D.txt", "bronze_fs220d");
    ("FS220G.txt", "bronze_fs220g");
    ("FS220H.txt", "bronze_fs220h");
    ("FS220I.txt", "bronze_fs220i");
    ("FS220J.txt", "bronze_fs220j");
    ("FS220K.txt", "bronze_fs220k");
    ("FS220L.txt", "bronze_fs220l");
    ("FS220M.txt", "bronze_fs220m");
    ("FS220N.txt", "bronze_fs220n");
    ("FS220P.txt", "bronze_fs220p");
    ("FS220Q.txt", "bronze_fs220q");
    ("FS220R.txt", "bronze_fs220r");
    ("FS220S.txt", "bronze_fs220s") ].

Definition BATCH_SIZE : nat := 200.

(** Columns managed by the schema, not sourced from the file. *)
Definition KEY_COLUMNS : gset string :=
  {[ "id"; "cu_number"; "cycle_date"; "year"; "quarter"; "period";
     "source_url"; "imported_at" ]}.

(* ===================================================================== *)
(** ** Exceptions and results *)
(* ===================================================================== *)

(** [sys.exit(msg)] raises [SystemExit]; anything an external collaborator
    (storage client, archive download) raises is an opaque [Raised] cause. *)
Inductive Exn : Type :=
| SystemExit (msg : string)
| Raised (cause : string).

Inductive Result (A : Type) : Type :=
| Ok (a : A)
| Raise (e : Exn).
Arguments Ok {A} a.
Arguments Raise {A} e.

(* ===================================================================== *)
(** ** Quarter utilities *)
(* ===================================================================== *)

Definition invalid_quarter_msg (s : string) : string :=
  "Invalid quarter format: " +:+ PyStr.dquote +:+ s +:+ PyStr.dquote
  +:+ ". Expected YYYY-QN (e.g. 2025-Q3)".

(** [re.match(r"^(\d{4})-Q([1-4])$", s)]: four digits, [-Q], one of [1-4];
    [$] matches at the end of the string and also just before a final
    newline. *)
Definition parse_quarter (s : string) : Result (Z * Z) :=
  match s with
  | String d1 (String d2 (String d3 (String d4
      (String dash (String cq (String n rest)))))) =>
      if PyStr.is_digit d1 && PyStr.is_digit d2 && PyStr.is_digit d3
         && PyStr.is_digit d4
         && bool_decide (dash = "-"%char) && bool_decide (cq = "Q"%char)
         && PyStr.is_digit n
         && bool_decide (1 <= PyStr.digit_val n <= 4)
         && (bool_decide (rest = EmptyString)
             || bool_decide (rest = PyStr.newline))
      then Ok (1000 * PyStr.digit_val d1 + 100 * PyStr.digit_val d2
               + 10 * PyStr.digit_val d3 + PyStr.digit_val d4,
               PyStr.digit_val n)
      else Raise (SystemExit (invalid_quarter_msg s))
  | _ => Raise (SystemExit (invalid_quarter_msg s))
  end.

(** [f"{NCUA_BASE_URL}/call-report-data-{year}-{QUARTER_MONTH[quarter]}.zip"];
    a quarter outside the table is a [KeyError]. *)
Definition quarter_url (year quarter : Z) : Result string :=
  match QUARTER_MONTH quarter with
  | Some mm =>
      Ok (NCUA_BASE_URL +:+ "/call-report-data-" +:+ PyStr.of_int year
          +:+ "-" +:+ mm +:+ ".zip")
  | None => Raise (Raised "KeyError")
  end.

(** [f"{y}-Q{q}"] *)
Definition quarter_label (y q : Z) : string :=
  PyStr.of_int y +:+ "-Q" +:+ PyStr.of_int q.

(** Python tuple comparison [(y, q) <= (ey, eq)]. *)
Definition tuple_le (y q ey eq : Z) : bool :=
  (y <? ey) || ((y =? ey) && (q <=? eq)).

(** One turn of the [while] body after the append: [q += 1], then the wrap. *)
Definition next_quarter (y q : Z) : Z * Z :=
  if 4 <? q + 1 then (y + 1, 1) else (y, q + 1).

(** The [while (y, q) <= (ey, eq)] loop of [quarter_range]; the result is the
    list appended to [quarters]. *)
Equations? quarter_loop (ey eq y q : Z) : list string
  by wf (Z.to_nat (4 * (ey - y) + (4 - Z.min q 4) + 1)) lt :=
  quarter_loop ey eq y q with Sumbool.sumbool_of_bool (tuple_le y q ey eq) := {
    | left _ =>
        quarter_label y q
        :: quarter_loop ey eq (next_quarter y q).1 (next_quarter y q).2;
    | right _ => [] }.
Proof.
  unfold tuple_le, next_quarter in *.
  destruct (4 <? q + 1) eqn:Hwrap; simpl; lia.
Qed.

Definition quarter_range (start end_ : string) : Result (list string) :=
  match parse_quarter start with
  | Raise e => Raise e
  | Ok (sy, sq) =>
      match parse_quarter end_ with
      | Raise e => Raise e
      | Ok (ey, eq) =>
          let quarters := quarter_loop ey eq sy sq in
          match quarters with
          | [] => Raise (SystemExit ("Invalid range: " +:+ start +:+ " to "
                                     +:+ end_))
          | _ => Ok quarters
          end
      end
  end.

(* ===================================================================== *)
(** ** Rows and records *)
(* ===================================================================== *)

(** The values the script puts into a row: [None], a [str], an [int]. *)
Inductive Value : Type :=
| VNone
| VStr (s : string)
| VInt (n : Z).

#[global] Instance Value_eq_dec : EqDecision Value.
Proof. solve_decision. Defined.

(** A projected row: the dict [row], column name to value. *)
Abbreviation Row := (gmap string Value).

(** A record yielded by [csv.DictReader]: field name to a [str], or to
    [None] for a field the line is too short to fill. *)
Abbreviation Record := (gmap string (option string)).

(** What [csv.DictReader] gives for one file: [reader.fieldnames or []] and
    the records in file order. *)
Record SourceFile : Type := {
  fieldnames : list string;
  records : list Record;
}.

(** [record.get(key)]: [None] when the key is absent. *)
Definition record_get (record : Record) (key : string) : option string :=
  match record !! key with
  | Some v => v
  | None => None
  end.

(** [record.get(key, "")] *)
Definition record_get_default (record : Record) (key : string)
  : option string :=
  match record !! key with
  | Some v => v
  | None => Some EmptyString
  end.

(** Python truthiness of [None] or a [str]. *)
Definition truthy (v : option string) : bool :=
  match v with
  | Some s => negb (bool_decide (s = EmptyString))
  | None => false
  end.

(** [a or b] *)
Definition py_or (a b : option string) : option string :=
  if truthy a then a else b.

(** [v or ""], which is always a [str] *)
Definition or_empty (v : option string) : string :=
  match py_or v (Some EmptyString) with
  | Some s => s
  | None => EmptyString
  end.

(** [(record.get(k1) or record.get(k2) or "").strip()] *)
Definition first_of (record : Record) (k1 k2 : string) : string :=
  PyStr.strip (or_empty (py_or (record_get record k1) (record_get record k2))).

(** [value if value != "" else None] *)
Definition passthrough (value : option string) : Value :=
  match value with
  | Some s => if bool_decide (s = EmptyString) then VNone else VStr s
  | None => VNone
  end.

(** [s or None] for a [str] *)
Definition str_or_none (s : string) : Value :=
  if bool_decide (s = EmptyString) then VNone else VStr s.

(** The period context stamped on every row of a file. *)
Record Period : Type := {
  year : Z;
  quarter : Z;
  period : string;
  source_url : string;
}.

(** The fixed part of [row], before the file columns are spread into it. *)
Definition base_row (cu_number : string) (record : Record) (ctx : Period)
  : Row :=
  <["source_url" := VStr (source_url ctx)]>
  (<["period" := VStr (period ctx)]>
  (<["quarter" := VInt (quarter ctx)]>
  (<["year" := VInt (year ctx)]>
  (<["cycle_date" := str_or_none (first_of record "CYCLE_DATE" "Cycle_Date")]>
  (<["cu_number" := VStr cu_number]> ∅))))).

(** One turn of [for header in headers]. *)
Definition spread (record : Record) (row : Row) (header : string) : Row :=
  if decide (header ∈ KEY_COLUMNS) then row
  else <[header := passthrough (record_get_default record header)]> row.

(** The body of [for record in reader]: [None] is the [continue]. *)
Definition project (headers : list string) (ctx : Period) (record : Record)
  : option Row :=
  let cu_number := first_of record "CU_NUMBER" "CU_Number" in
  if bool_decide (cu_number = EmptyString) then None
  else Some (foldl (spread record) (base_row cu_number record ctx) headers).

(** The list [rows] built by the loop. *)
Definition project_all (headers : list string) (ctx : Period)
  (recs : list Record) : list Row :=
  omap (project headers ctx) recs.

(* ===================================================================== *)
(** ** The world: external collaborators and the log *)
(* ===================================================================== *)

(** What the archive of a period looks like once extracted: the files at the
    top of [extract_dir], and its sub-directories in [os.scandir] order. *)
Record Extracted : Type := {
  tmp : string;
  top : gmap string SourceFile;
  subdirs : list (gmap string SourceFile);
}.

(** The lines the script prints, by their format string. *)
Inductive Line : Type :=
| LDownloading (url : string)
| LAddingColumns (n : nat) (table : string)
| LNotFound (fname : string)
| LBatchError (table : string) (cause : string)
| LFileSummary (fname table : string) (nrows ncols errors : nat)
| LBanner (quarter_str : string)
| LComplete (total : nat) (quarter_str : string)
| LQuartersToImport (quarters : list string)
| LAllDone (nquarters total : nat).

(** Every externally visible action, logged when it is attempted. *)
Inductive Event : Type :=
| EGetColumnNames (table : string)
| EAddTextColumn (table column : string)
| EReloadSchemaCache
| ESleep (seconds : Z)
| EUpsert (table : string) (batch : list Row)
| EFetch (url : string)
| ERmtree (dir : string)
| EPrint (line : Line).

(** The external collaborators over their own state [S]: the storage client
    ([supabase.rpc(...).execute()], [supabase.table(...).upsert(...,
    on_conflict="cu_number,year,quarter").execute()]) and the archive
    download ([mkdtemp], [urlretrieve], [ZipFile.extractall]).  Each call may
    return or raise, and may change the external state either way.
    [get_column_names] returns [resp.data]; [upsert] returns [resp.error]
    when the response has a truthy one, [None] otherwise. *)
Record Backend (S : Type) : Type := {
  get_column_names : string -> S -> Result (option (list string)) * S;
  add_text_column : string -> string -> S -> Result unit * S;
  reload_schema_cache : S -> Result unit * S;
  upsert : string -> list Row -> S -> Result (option string) * S;
  fetch : string -> S -> Result Extracted * S;
}.
Arguments get_column_names {S} _ _ _.
Arguments add_text_column {S} _ _ _ _.
Arguments reload_schema_cache {S} _ _.
Arguments upsert {S} _ _ _ _.
Arguments fetch {S} _ _ _.

Record World (S : Type) : Type := {
  ext : S;
  log : list Event;
}.
Arguments ext {S} _.
Arguments log {S} _.
Arguments Build_World {S} _ _.

(** State and exception monad: the world is kept when an exception is
    raised, since what was done before it stays done. *)
Definition M (S A : Type) : Type := World S -> Result A * World S.

Definition ret {S A} (a : A) : M S A := fun w => (Ok a, w).

Definition bind {S A B} (m : M S A) (k : A -> M S B) : M S B :=
  fun w =>
    match m w with
    | (Ok a, w') => k a w'
    | (Raise e, w') => (Raise e, w')
    end.

Definition lift {S A} (r : Result A) : M S A := fun w => (r, w).

Definition emit {S} (ev : Event) : M S unit :=
  fun w => (Ok tt, Build_World (ext w) (log w ++ [ev])).

(** An external call: log it, then let the collaborator act on its state. *)
Definition call {S A} (ev : Event) (op : S -> Result A * S) : M S A :=
  fun w =>
    let '(r, s') := op (ext w) in
    (r, Build_World s' (log w ++ [ev])).

(** [try: body finally: final] where [final] cannot raise. *)
Definition try_finally {S A} (body : M S A) (final : M S unit) : M S A :=
  fun w =>
    let '(r, w') := body w in
    (r, (final w').2).

Declare Scope py_scope.
Delimit Scope py_scope with py.
Notation "'let*' x ':=' m 'in' k" := (bind m (fun x => k))
  (at level 10, x pattern, m at level 100, k at level 200) : py_scope.
Notation "m ';;' k" := (bind m (fun _ => k))
  (at level 100, k at level 200, right associativity) : py_scope.
Local Open Scope py_scope.

(* ===================================================================== *)
(** ** Download and extract *)
(* ===================================================================== *)

(** [resolve_data_dir]: the directory that holds [FOICU.txt]. *)
Definition resolve_data_dir (x : Extracted)
  : Result (gmap string SourceFile) :=
  if decide (is_Some (top x !! "FOICU.txt")) then Ok (top x)
  else
    match List.find (fun d => bool_decide (is_Some (d !! "FOICU.txt")))
            (subdirs x) with
    | Some d => Ok d
    | None =>
        Raise (SystemExit ("FOICU.txt not found in extracted data at "
                           +:+ tmp x +:+ "/data"))
    end.

Definition download_and_extract {S} (b : Backend S) (year quarter : Z)
  : M S (string * gmap string SourceFile * string) :=
  let* url := lift (quarter_url year quarter) in
  emit (EPrint (LDownloading url)) ;;
  let* x := call (EFetch url) (fetch b url) in
  let* data_dir := lift (resolve_data_dir x) in
  ret (tmp x, data_dir, url).

(* ===================================================================== *)
(** ** Dynamic schema: ensure columns exist in the table *)
(* ===================================================================== *)

(** [set(resp.data) if resp.data else set()] *)
Definition existing_columns (data : option (list string)) : gset string :=
  match data with
  | Some names => list_to_set names
  | None => ∅
  end.

(** [[h for h in file_headers if h not in existing and h not in KEY_COLUMNS]] *)
Definition new_columns (existing : gset string) (file_headers : list string)
  : list string :=
  filter (fun h => (h ∉ existing) ∧ (h ∉ KEY_COLUMNS)) file_headers.

(** [for col in new_cols: supabase.rpc("add_text_column", ...).execute()] *)
Fixpoint add_columns {S} (b : Backend S) (table_name : string)
  (cols : list string) : M S unit :=
  match cols with
  | [] => ret tt
  | col :: cols' =>
      call (EAddTextColumn table_name col) (add_text_column b table_name col) ;;
      add_columns b table_name cols'
  end.

Definition ensure_columns {S} (b : Backend S) (table_name : string)
  (file_headers : list string) : M S unit :=
  let* data := call (EGetColumnNames table_name) (get_column_names b table_name) in
  let new_cols := new_columns (existing_columns data) file_headers in
  match new_cols with
  | [] => ret tt
  | _ =>
      emit (EPrint (LAddingColumns (length new_cols) table_name)) ;;
      add_columns b table_name new_cols ;;
      call EReloadSchemaCache (reload_schema_cache b) ;;
      emit (ESleep 1)
  end.

(* ===================================================================== *)
(** ** Parse and ingest a single text file *)
(* ===================================================================== *)

(** [range(0, stop, step)] *)
Definition range_step (stop step : nat) : list nat :=
  (fun k => k * step)%nat <$> seq 0 ((stop + step - 1) / step)%nat.

(** [[rows[i : i + BATCH_SIZE] for i in range(0, len(rows), BATCH_SIZE)]] *)
Definition batches (rows : list Row) : list (list Row) :=
  (fun i => take BATCH_SIZE (drop i rows))
  <$> range_step (length rows) BATCH_SIZE.

(** The batch upsert loop; [errors] is the running count. *)
Fixpoint upsert_batches {S} (b : Backend S) (table_name : string)
  (bs : list (list Row)) (errors : nat) : M S nat :=
  match bs with
  | [] => ret errors
  | batch :: bs' =>
      let* resp_error :=
        call (EUpsert table_name batch) (upsert b table_name batch) in
      match resp_error with
      | Some cause =>
          emit (EPrint (LBatchError table_name cause)) ;;
          upsert_batches b table_name bs' (errors + 1)
      | None => upsert_batches b table_name bs' errors
      end
  end.

(** [ingest_file]; [data_dir !! fname] stands for the file at
    [os.path.join(data_dir, filename)], [None] when it does not exist. *)
Definition ingest_file {S} (b : Backend S) (data_dir : gmap string SourceFile)
  (fname table_name : string) (ctx : Period) : M S nat :=
  match data_dir !! fname with
  | None => emit (EPrint (LNotFound fname)) ;; ret 0%nat
  | Some f =>
      let headers := fieldnames f in
      ensure_columns b table_name headers ;;
      let rows := project_all headers ctx (records f) in
      let* errors := upsert_batches b table_name (batches rows) 0 in
      emit (EPrint (LFileSummary fname table_name (length rows)
                      (length headers) errors)) ;;
      ret (length rows)
  end.

(* ===================================================================== *)
(** ** Import a single quarter, and the period loop of [main] *)
(* ===================================================================== *)

(** [for filename, table_name in SOURCE_FILES.items(): total_rows += ...] *)
Fixpoint ingest_files {S} (b : Backend S) (data_dir : gmap string SourceFile)
  (ctx : Period) (files : list (string * string)) (total_rows : nat)
  : M S nat :=
  match files with
  | [] => ret total_rows
  | (filename, table_name) :: files' =>
      let* n := ingest_file b data_dir filename table_name ctx in
      ingest_files b data_dir ctx files' (total_rows + n)
  end.

Definition import_quarter {S} (b : Backend S) (quarter_str : string)
  : M S nat :=
  let* (year, quarter) := lift (parse_quarter quarter_str) in
  emit (EPrint (LBanner quarter_str)) ;;
  let* (tmp, data_dir, source_url) := download_and_extract b year quarter in
  let* total_rows :=
    try_finally
      (ingest_files b data_dir
         {| year := year; quarter := quarter; period := quarter_str;
            source_url := source_url |}
         SOURCE_FILES 0)
      (emit (ERmtree tmp)) in
  emit (EPrint (LComplete total_rows quarter_str)) ;;
  ret total_rows.

(** [for q in quarters: total += import_quarter(supabase, q)] *)
Fixpoint import_quarters {S} (b : Backend S) (quarters : list string)
  (total : nat) : M S nat :=
  match quarters with
  | [] => ret total
  | q :: quarters' =>
      let* n := import_quarter b q in
      import_quarters b quarters' (total + n)
  end.

(** The tail of [main], once [quarters] is known. *)
Definition main_import {S} (b : Backend S) (quarters : list string)
  : M S nat :=
  emit (EPrint (LQuartersToImport quarters)) ;;
  let* total := import_quarters b quarters 0 in
  emit (EPrint (LAllDone (length quarters) total)) ;;
  ret total.

(* ===================================================================== *)
(** ** Reading the log *)
(* ===================================================================== *)

(** The batches submitted, with their table, in submission order. *)
Definition upserts_of (l : list Event) : list (string * list Row) :=
  omap (fun ev => match ev with EUpsert t batch => Some (t, batch) | _ => None end) l.

(** The batch failures reported, with table and cause. *)
Definition batch_errors_of (l : list Event) : list (string * string) :=
  omap (fun ev => match ev with
                  | EPrint (LBatchError t cause) => Some (t, cause)
                  | _ => None
                  end) l.

(** The calls made to the schema registry (listing, addition, refresh). *)
Definition registry_calls_of (l : list Event) : list Event :=
  omap (fun ev => match ev with
                  | EGetColumnNames _ | EAddTextColumn _ _
                  | EReloadSchemaCache => Some ev
                  | _ => None
                  end) l.

(** The tables whose columns were listed, i.e. whose file was started. *)
Definition tables_started (l : list Event) : list string :=
  omap (fun ev => match ev with EGetColumnNames t => Some t | _ => None end) l.

(** The archives requested. *)
Definition fetches_of (l : list Event) : list string :=
  omap (fun ev => match ev with EFetch url => Some url | _ => None end) l.

(* ===================================================================== *)
(** ** A storage model *)
(* ===================================================================== *)

(** A destination table: its known columns and its rows, oldest first. *)
Record Table : Type := {
  columns : gset string;
  stored : list Row;
}.

(** The store: destination tables by name, published archives by URL. *)
Record Store : Type := {
  tables : gmap string Table;
  archives : gmap string Extracted;
}.

(** The conflict key [cu_number,year,quarter] of a row. *)
Definition key_of (r : Row) : option Value * option Value * option Value :=
  (r !! "cu_number", r !! "year", r !! "quarter").

(** Modelled from the spec: the insert-or-update of one row, which the
    storage service performs and the repository does not contain.  Section
    4.4: an existing row matching the conflict key has its columns
    overwritten with the submitted values, an absent row is inserted. *)
Fixpoint upsert_row (r : Row) (t : list Row) : list Row :=
  match t with
  | [] => [r]
  | s :: t' =>
      if decide (key_of s = key_of r) then (r ∪ s) :: t'
      else s :: upsert_row r t'
  end.

(** A batch is one insert-or-update per row, in order. *)
Definition upsert_rows (batch : list Row) (t : list Row) : list Row :=
  foldl (fun t r => upsert_row r t) t batch.

(** Modelled from the spec: the schema registry and batch upsert primitives
    of the storage service (sections 4.1 and 4.4), absent from the
    repository.  [list_columns] fails on an unknown table; [add_column] adds
    the column when absent and is a no-op otherwise; [refresh_view] changes
    no table; a batch upserts its rows. *)
Definition store_get_column_names (table : string) (s : Store)
  : Result (option (list string)) * Store :=
  match tables s !! table with
  | Some tb => (Ok (Some (elements (columns tb))), s)
  | None => (Raise (Raised "SchemaQueryError"), s)
  end.

Definition store_add_text_column (table column : string) (s : Store)
  : Result unit * Store :=
  match tables s !! table with
  | Some tb =>
      (Ok tt,
       {| tables := <[table := {| columns := {[column]} ∪ columns tb;
                                  stored := stored tb |}]> (tables s);
          archives := archives s |})
  | None => (Raise (Raised "SchemaMutationError"), s)
  end.

Definition store_reload_schema_cache (s : Store) : Result unit * Store :=
  (Ok tt, s).

Definition store_upsert (table : string) (batch : list Row) (s : Store)
  : Result (option string) * Store :=
  match tables s !! table with
  | Some tb =>
      (Ok None,
       {| tables := <[table := {| columns := columns tb;
                                  stored := upsert_rows batch (stored tb) |}]>
                      (tables s);
          archives := archives s |})
  | None => (Raise (Raised "BatchWriteError"), s)
  end.

Definition store_fetch (url : string) (s : Store) : Result Extracted * Store :=
  match archives s !! url with
  | Some x => (Ok x, s)
  | None => (Raise (Raised "HTTPError"), s)
  end.

Definition spec_backend : Backend Store := {|
  get_column_names := store_get_column_names;
  add_text_column := store_add_text_column;
  reload_schema_cache := store_reload_schema_cache;
  upsert := store_upsert;
  fetch := store_fetch;
|}.

(** The same store with injected faults, for failure scenarios: the columns
    the registry rejects, and the batches the write path answers with an
    error response. *)
Record Faults : Type := {
  rejected_columns : gset string;
  failing_batch : list Row -> option string;
}.

Definition no_faults : Faults :=
  {| rejected_columns := ∅; failing_batch := fun _ => None |}.

Definition faulty_backend (f : Faults) : Backend Store := {|
  get_column_names := store_get_column_names;
  add_text_column := fun table column s =>
    if decide (column ∈ rejected_columns f)
    then (Raise (Raised "SchemaMutationError"), s)
    else store_add_text_column table column s;
  reload_schema_cache := store_reload_schema_cache;
  upsert := fun table batch s =>
    match failing_batch f batch with
    | Some cause => (Ok (Some cause), s)
    | None => store_upsert table batch s
    end;
  fetch := store_fetch;
|}.

(** Every conflict key occurs at most once in every table. *)
Definition keys_unique (s : Store) : Prop :=
  forall name tb, tables s !! name = Some tb -> NoDup (key_of <$> stored tb).

(** The states the script can bring the store to: from tables without rows,
    by any number of file ingestions. *)
Inductive reachable : Store -> Prop :=
| reachable_init s :
    (forall name tb, tables s !! name = Some tb -> stored tb = []) ->
    reachable s
| reachable_ingest s l data_dir fname table ctx r w' :
    reachable s ->
    ingest_file spec_backend data_dir fname table ctx (Build_World s l)
      = (r, w') ->
    reachable (ext w').

(** The responses the write path gives to a sequence of batches, from a
    given external state, up to the first call that raises. *)
Fixpoint upsert_responses {S} (b : Backend S) (table_name : string)
  (bs : list (list Row)) (s : S) : list (option string) :=
  match bs with
  | [] => []
  | batch :: bs' =>
      match upsert b table_name batch s with
      | (Ok resp, s') => resp :: upsert_responses b table_name bs' s'
      | (Raise _, _) => []
      end
  end.

(** The write path answers every call (with or without an error), it does
    not raise. *)
Definition upsert_answers {S} (b : Backend S) : Prop :=
  forall table batch s, exists resp s', upsert b table batch s = (Ok resp, s').

(* ===================================================================== *)
(** ** Scenarios *)
(* ===================================================================== *)

Definition ctx_2025Q3 : Period :=
  {| year := 2025; quarter := 3; period := "2025-Q3";
     source_url :=
       "https://www.ncua.gov/files/publications/analysis/call-report-data-2025-09.zip" |}.

Definition assets_file : SourceFile :=
  {| fieldnames := ["CU_NUMBER"; "CYCLE_DATE"; "ASSETS"];
     records :=
       [ {[ "CU_NUMBER" := Some "12345"; "CYCLE_DATE" := Some "2025-06-30";
            "ASSETS" := Some "1000000" ]} ] |}.

Definition empty_foicu : Store :=
  {| tables := {[ "bronze_foicu" := {| columns := KEY_COLUMNS; stored := [] |} ]};
     archives := ∅ |}.

Definition assets_dir : gmap string SourceFile :=
  {[ "FOICU.txt" := assets_file ]}.

(* ===================================================================== *)
(** ** Environment *)
(* ===================================================================== *)

Definition ALLOWED_PROJECTS : list string :=
  ["jhlkpogfkytfedqupytv"; "ckpihayqxwplgxdmijyp"].

(** [s.startswith(p)] *)
Fixpoint starts_with (p s : string) : bool :=
  match p, s with
  | EmptyString, _ => true
  | String a p', String b s' => bool_decide (a = b) && starts_with p' s'
  | String _ _, EmptyString => false
  end.

(** [sub in s] *)
Fixpoint contains (sub s : string) : bool :=
  starts_with sub s
  || match s with
     | EmptyString => false
     | String _ s' => contains sub s'
     end.

Definition is_quote (a : Ascii.ascii) : bool :=
  bool_decide (a = "'"%char) || bool_decide (a = Ascii.ascii_of_nat 34).

Fixpoint lstrip_quotes (s : string) : string :=
  match s with
  | EmptyString => EmptyString
  | String a s' => if is_quote a then lstrip_quotes s' else s
  end.

Fixpoint rstrip_quotes (s : string) : string :=
  match s with
  | EmptyString => EmptyString
  | String a s' =>
      match rstrip_quotes s' with
      | EmptyString => if is_quote a then EmptyString else String a EmptyString
      | r => String a r
      end
  end.

(** The value of an environment variable as [load_env] reads it: [None]
    counts as empty, then whitespace is stripped, then single and double
    quotes. *)
Definition env_value (v : option string) : string :=
  rstrip_quotes (lstrip_quotes (PyStr.strip (or_empty v))).

Definition missing_env_msg : string :=
  "ERROR: Missing VITE_SUPABASE_URL or SUPABASE_SERVICE_ROLE_KEY".

(** The message of the allow-list refusal; its dash is the UTF-8 encoding
    of the em dash of the source. *)
Definition blocked_msg (url : string) : string :=
  "IMPORT BLOCKED — target project not in allow list" +:+ PyStr.newline
  +:+ "Target: " +:+ url.

(** [load_env], up to [create_client]: the URL and key the client is
    created with.  [root_path name] is [project_root / name]; [path_exists]
    is [Path.exists]; [environ file name] is [os.getenv(name)] once
    [load_dotenv(file)] has run. *)
Definition load_env (root_path : string -> string)
  (path_exists : string -> bool) (environ : string -> string -> option string)
  (env_file : option string) : Result (string * string) :=
  let loaded :=
    if truthy env_file then
      let path := root_path (or_empty env_file) in
      if path_exists path then Ok path
      else Raise (SystemExit ("ERROR: Env file not found: " +:+ path))
    else if path_exists (root_path ".env.local")
         then Ok (root_path ".env.local")
         else Ok (root_path ".env") in
  match loaded with
  | Raise e => Raise e
  | Ok file =>
      let url := env_value (environ file "VITE_SUPABASE_URL") in
      let key := env_value (environ file "SUPABASE_SERVICE_ROLE_KEY") in
      if bool_decide (url = EmptyString) || bool_decide (key = EmptyString)
      then Raise (SystemExit missing_env_msg)
      else if negb (existsb (fun ref => contains ref url) ALLOWED_PROJECTS)
      then Raise (SystemExit (blocked_msg url))
      else Ok (url, key)
  end.

(* ===================================================================== *)
(** ** Latest quarter detection *)
(* ===================================================================== *)

Definition no_quarter_msg : string :=
  "Could not detect latest available quarter from NCUA".

(** The [for _ in range(4)] loop of [detect_latest], [n] turns being left.
    [status_200 url] tells whether the HEAD request to [url] returns with
    status 200; a request that raises or answers anything else is [false].
    The result comes with the line printed on success. *)
Fixpoint detect_latest_loop (status_200 : string -> bool) (n : nat)
  (year quarter : Z) : Result string * list string :=
  match n with
  | O => (Raise (SystemExit no_quarter_msg), [])
  | S n' =>
      match quarter_url year quarter with
      | Raise e => (Raise e, [])
      | Ok url =>
          if status_200 url then
            let result := quarter_label year quarter in
            (Ok result, ["  Latest available quarter: " +:+ result])
          else
            let quarter := quarter - 1 in
            if quarter <? 1
            then detect_latest_loop status_200 n' (year - 1) 4
            else detect_latest_loop status_200 n' year quarter
      end
  end.

(** [detect_latest]; [probe_year] and [probe_month] are those of
    [datetime.now() - timedelta(days=45)]. *)
Definition detect_latest (status_200 : string -> bool)
  (probe_year probe_month : Z) : Result string * list string :=
  detect_latest_loop status_200 4 probe_year ((probe_month - 1) `div` 3 + 1).

(* ===================================================================== *)
(** ** Vocabulary of the statements *)
(* ===================================================================== *)

(** Quarters counted from year 0: consecutive quarters have consecutive
    indices. *)
Definition quarter_index (y q : Z) : Z := 4 * y + (q - 1).

Definition quarter_at (i : Z) : Z * Z := (i `div` 4, i `mod` 4 + 1).

(** Every quarter from [(sy, sq)] to [(ey, eq)], both included, in
    chronological order. *)
Definition quarters_between (sy sq ey eq : Z) : list (Z * Z) :=
  quarter_at <$> seqZ (quarter_index sy sq)
                   (quarter_index ey eq - quarter_index sy sq + 1).

(** A field that is missing, [None], empty or all whitespace: it is empty
    after trimming. *)
Definition field_blank (v : option string) : bool :=
  match v with
  | Some s => PyStr.blank s
  | None => true
  end.

(** A field that holds a non-empty string made of whitespace only. *)
Definition whitespace_only (v : option string) : bool :=
  truthy v && field_blank v.

(** The columns [ingest_file] sets on every row before the file columns. *)
Definition metadata_columns : gset string :=
  {[ "cu_number"; "cycle_date"; "year"; "quarter"; "period"; "source_url" ]}.

Definition assets_record : Record :=
  {[ "CU_NUMBER" := Some "12345"; "CYCLE_DATE" := Some "2025-06-30";
     "ASSETS" := Some "1000000" ]}.

(** The row [assets_record] projects to for 2025-Q3. *)
Definition assets_row : Row :=
  {[ "cu_number" := VStr "12345"; "cycle_date" := VStr "2025-06-30";
     "year" := VInt 2025; "quarter" := VInt 3; "period" := VStr "2025-Q3";
     "source_url" :=
       VStr "https://www.ncua.gov/files/publications/analysis/call-report-data-2025-09.zip";
     "CU_NUMBER" := VStr "12345"; "CYCLE_DATE" := VStr "2025-06-30";
     "ASSETS" := VStr "1000000" ]}.

(** A record that carries both header variants, the upper-case one holding
    a single space. *)
Definition both_variants_record : Record :=
  {[ "CU_NUMBER" := Some " "; "CU_Number" := Some "12345" ]}.

(** What a successful reconciliation does after listing the columns, given
    the list of missing columns. *)
Definition reconcile_events (table : string) (missing : list string)
  : list Event :=
  match missing with
  | [] => []
  | _ =>
      [EPrint (LAddingColumns (length missing) table)]
      ++ (EAddTextColumn table <$> missing)
      ++ [EReloadSchemaCache; ESleep 1]
  end.

(** A write path that counts its calls and answers the call numbered [k]
    (from 0) with an error; the registry has nothing to add and there is no
    archive. *)
Definition scripted_backend (fail_at : nat -> option string) : Backend nat := {|
  get_column_names := fun _ n => (Ok None, n);
  add_text_column := fun _ _ n => (Ok tt, n);
  reload_schema_cache := fun n => (Ok tt, n);
  upsert := fun _ _ n => (Ok (fail_at n), S n);
  fetch := fun _ n => (Raise (Raised "HTTPError"), n);
|}.

(** A write path that counts its calls and raises on the call numbered [k]
    (from 0), as a client does that reports failures by exceptions. *)
Definition raising_backend (k : nat) : Backend nat := {|
  get_column_names := fun _ n => (Ok None, n);
  add_text_column := fun _ _ n => (Ok tt, n);
  reload_schema_cache := fun n => (Ok tt, n);
  upsert := fun _ _ n =>
    if decide (n = k) then (Raise (Raised "APIError"), S n)
    else (Ok None, S n);
  fetch := fun _ n => (Raise (Raised "HTTPError"), n);
|}.

Definition fail_only (k : nat) (n : nat) : option string :=
  if decide (n = k) then Some "injected failure" else None.

(** The store of [empty_foicu] once [assets_file] has been ingested: the
    table has the file's columns. *)
Definition synced_foicu : Store :=
  {| tables :=
       {[ "bronze_foicu" :=
            {| columns := KEY_COLUMNS ∪ {[ "CU_NUMBER"; "CYCLE_DATE"; "ASSETS" ]};
               stored := [] |} ]};
     archives := ∅ |}.

(** Every batch is answered with an error. *)
Definition all_batches_fail : Faults :=
  {| rejected_columns := ∅; failing_batch := fun _ => Some "boom" |}.

(** A second file of the same archive, with nothing unusual in it. *)
Definition fs220_file : SourceFile :=
  {| fieldnames := ["CU_NUMBER"; "ACCT_010"];
     records := [ {[ "CU_NUMBER" := Some "12345"; "ACCT_010" := Some "7" ]} ] |}.

Definition url_2024Q4 : string :=
  "https://www.ncua.gov/files/publications/analysis/call-report-data-2024-12.zip".
Definition url_2025Q1 : string :=
  "https://www.ncua.gov/files/publications/analysis/call-report-data-2025-03.zip".
Definition url_2025Q3 : string :=
  "https://www.ncua.gov/files/publications/analysis/call-report-data-2025-09.zip".

Definition two_file_archive : Extracted :=
  {| tmp := "/tmp/ncua-bronze";
     top := {[ "FOICU.txt" := assets_file; "FS220.txt" := fs220_file ]};
     subdirs := [] |}.

(** Two destination tables without rows; the archives of 2025-Q1 and
    2025-Q3 are published, the one of 2024-Q4 is not. *)
Definition two_table_store : Store :=
  {| tables :=
       {[ "bronze_foicu" := {| columns := KEY_COLUMNS; stored := [] |};
          "bronze_fs220" := {| columns := KEY_COLUMNS; stored := [] |} ]};
     archives :=
       {[ url_2025Q1 := two_file_archive; url_2025Q3 := two_file_archive ]} |}.

(** The registry rejects the column [ASSETS]. *)
Definition assets_rejected : Faults :=
  {| rejected_columns := {[ "ASSETS" ]}; failing_batch := fun _ => None |}.

(** The rows of a batch sequence that carry the conflict key [k], merged
    into [s] in submission order, and the rows that carry another key. *)
Definition merge_key (k : option Value * option Value * option Value)
  (l : list Row) (s : Row) : Row :=
  foldl (fun acc r => if decide (key_of r = k) then r ∪ acc else acc) s l.

Definition other_keys (k : option Value * option Value * option Value)
  (l : list Row) : list Row :=
  filter (fun r => key_of r ≠ k) l.

(** The store with one table replaced. *)
Definition with_table (s : Store) (name : string) (tb : Table) : Store :=
  {| tables := <[name := tb]> (tables s); archives := archives s |}.

(** The table a file leaves behind: the missing columns added, the
    projected rows upserted. *)
Definition ingested_table (tb : Table) (f : SourceFile) (ctx : Period)
  : Table :=
  {| columns := list_to_set (new_columns (columns tb) (fieldnames f))
                ∪ columns tb;
     stored := upsert_rows (project_all (fieldnames f) ctx (records f))
                 (stored tb) |}.

(* ===================================================================== *)
(** ** Vocabulary of the further properties *)
(* ===================================================================== *)

(** Parsing the label of [(y, q)] gives [(y, q)] back. *)
Definition label_roundtrips (y q : Z) : bool :=
  match parse_quarter (quarter_label y q) with
  | Ok (y', q') => (y' =? y) && (q' =? q)
  | Raise _ => false
  end.

(** [f"{n:02d}"] for a month number. *)
Definition two_digits (n : Z) : string :=
  if n <? 10 then "0" +:+ PyStr.of_int n else PyStr.of_int n.

(** The loop of [ingest_file] skips the record. *)
Definition dropped (record : Record) : bool :=
  field_blank (record_get record "CU_NUMBER")
  && field_blank (record_get record "CU_Number")
  || whitespace_only (record_get record "CU_NUMBER").

(** A record whose file also has columns named like reserved ones. *)
Definition shadowing_record : Record :=
  {[ "CU_NUMBER" := Some " 12345 "; "year" := Some "1999";
     "id" := Some "7"; "CYCLE_DATE" := Some "  " ]}.

(** The row [shadowing_record] projects to for 2025-Q3 under the headers
    [CU_NUMBER], [year], [id], [CYCLE_DATE]. *)
Definition shadowing_row : Row :=
  {[ "cu_number" := VStr "12345"; "cycle_date" := VNone;
     "year" := VInt 2025; "quarter" := VInt 3; "period" := VStr "2025-Q3";
     "source_url" :=
       VStr "https://www.ncua.gov/files/publications/analysis/call-report-data-2025-09.zip";
     "CU_NUMBER" := VStr " 12345 "; "CYCLE_DATE" := VStr "  " ]}.

(** The temporary directories removed. *)
Definition removals_of (l : list Event) : list string :=
  omap (fun ev => match ev with ERmtree dir => Some dir | _ => None end) l.

(** The calls made to the storage service: registry calls and batches. *)
Definition storage_calls_of (l : list Event) : list Event :=
  omap (fun ev => match ev with
                  | EGetColumnNames _ | EAddTextColumn _ _
                  | EReloadSchemaCache | EUpsert _ _ => Some ev
                  | _ => None
                  end) l.

(** The number of rows a file of the archive contributes. *)
Definition file_rows (data_dir : gmap string SourceFile) (ctx : Period)
  (fname : string) : nat :=
  match data_dir !! fname with
  | Some f => length (project_all (fieldnames f) ctx (records f))
  | None => 0%nat
  end.

(** The archive of a quarter answers the probe. *)
Definition available (status_200 : string -> bool) (p : Z * Z) : bool :=
  match quarter_url p.1 p.2 with
  | Ok url => status_200 url
  | Raise _ => false
  end.

(** The [n] quarters ending with [(y, q)], most recent first. *)
Definition probed (y q : Z) (n : nat) : list (Z * Z) :=
  (fun k => quarter_at (quarter_index y q - Z.of_nat k)) <$> seq 0 n.

(** Only the archive of 2025-Q3 is published. *)
Definition only_2025Q3 (url : string) : bool :=
  bool_decide
    (url = "https://www.ncua.gov/files/publications/analysis/call-report-data-2025-09.zip").

(** An environment whose values carry quotes and spaces, as a [.env] file
    may hold them. *)
Definition quoted_environ (file name : string) : option string :=
  if bool_decide (name = "VITE_SUPABASE_URL")
  then Some " 'https://jhlkpogfkytfedqupytv.supabase.co' "
  else if bool_decide (name = "SUPABASE_SERVICE_ROLE_KEY")
  then Some "service-key"
  else None.

(* ===================================================================== *)
(** ** Quarter ranges *)
(* ===================================================================== *)

Lemma quarter_loop_step ey eq y q :
  quarter_loop ey eq y q =
    if tuple_le y q ey eq
    then quarter_label y q
         :: quarter_loop ey eq (next_quarter y q).1 (next_quarter y q).2
    else [].
Proof.
  rewrite quarter_loop_equation_1.
  destruct (Sumbool.sumbool_of_bool (tuple_le y q ey eq)) as [H|H];
    unfold quarter_loop_unfold_clause_1; rewrite H; reflexivity.
Qed.

Lemma parse_quarter_range s y q :
  parse_quarter s = Ok (y, q) -> 0 <= y <= 9999 /\ 1 <= q <= 4.
Proof.
  unfold parse_quarter.
  do 7 (destruct s as [|? s]; [discriminate|]).
  match goal with |- context [if ?c then _ else _] => destruct c eqn:Hc end;
    [|discriminate].
  intros [= <- <-].
  repeat match type of Hc with
         | (_ && _)%bool = true => apply andb_prop in Hc as [Hc ?]
         end.
  unfold PyStr.is_digit, PyStr.digit_val in *.
  repeat match goal with
         | H : bool_decide _ = true |- _ => apply bool_decide_eq_true in H
         | H : (_ && _)%bool = true |- _ => apply andb_prop in H as [? ?]
         | H : (_ <=? _)%nat = true |- _ => apply Nat.leb_le in H
         end.
  lia.
Qed.

Lemma quarter_at_index y q : 1 <= q <= 4 -> quarter_at (quarter_index y q) = (y, q).
Proof.
  intros Hq. unfold quarter_at, quarter_index. f_equal.
  - symmetry. apply (Z.div_unique _ 4 y (q - 1)); lia.
  - assert ((4 * y + (q - 1)) `mod` 4 = q - 1); [|lia].
    symmetry. apply (Z.mod_unique _ 4 y (q - 1)); lia.
Qed.

Lemma next_quarter_index y q :
  1 <= q <= 4 ->
  quarter_index (next_quarter y q).1 (next_quarter y q).2 = quarter_index y q + 1
  /\ 1 <= (next_quarter y q).2 <= 4.
Proof.
  intros Hq. unfold next_quarter, quarter_index.
  destruct (4 <? q + 1) eqn:H; simpl; lia.
Qed.

Lemma tuple_le_index y q ey eq :
  1 <= q <= 4 -> 1 <= eq <= 4 ->
  tuple_le y q ey eq = true <-> quarter_index y q <= quarter_index ey eq.
Proof.
  intros Hq He. unfold tuple_le, quarter_index.
  rewrite orb_true_iff, andb_true_iff, Z.ltb_lt, Z.eqb_eq, Z.leb_le. lia.
Qed.

Lemma quarter_loop_enumerates ey eq (n : nat) : forall y q,
  1 <= q <= 4 -> 1 <= eq <= 4 ->
  quarter_index ey eq - quarter_index y q + 1 = Z.of_nat n ->
  quarter_loop ey eq y q =
    (fun p => quarter_label p.1 p.2) <$> (quarter_at <$> seqZ (quarter_index y q) (Z.of_nat n)).
Proof.
  induction n as [|n IH]; intros y q Hq He Hn; rewrite quarter_loop_step.
  - destruct (tuple_le y q ey eq) eqn:Hle; [|reflexivity].
    apply tuple_le_index in Hle; lia.
  - destruct (tuple_le y q ey eq) eqn:Hle.
    + destruct (next_quarter_index y q Hq) as [Hi Hr].
      rewrite Nat2Z.inj_succ, seqZ_cons by lia.
      rewrite !fmap_cons, quarter_at_index by done. simpl.
      rewrite (IH _ _ Hr He) by lia.
      rewrite Hi, Z.pred_succ, Z.add_1_r. reflexivity.
    + apply not_true_iff_false in Hle. rewrite tuple_le_index in Hle by done. lia.
Qed.

(** C9: for two valid identifiers with the start not after the end, the
    range is the list of the labels of every quarter from the start to the
    end, both included, in chronological order, Q4 being followed by Q1 of
    the next year. *)
Theorem quarter_range_expands start end_ sy sq ey eq :
  parse_quarter start = Ok (sy, sq) ->
  parse_quarter end_ = Ok (ey, eq) ->
  quarter_index sy sq <= quarter_index ey eq ->
  quarter_range start end_ =
    Ok ((fun p => quarter_label p.1 p.2) <$> quarters_between sy sq ey eq).
Proof.
  intros Hs He Hle. unfold quarter_range. rewrite Hs, He.
  apply parse_quarter_range in Hs as [_ Hsq], He as [_ Heq].
  unfold quarters_between.
  rewrite (quarter_loop_enumerates ey eq
             (Z.to_nat (quarter_index ey eq - quarter_index sy sq + 1)))
    by (try done; lia).
  rewrite Z2Nat.id by lia.
  destruct (seqZ _ _) eqn:Hseq; [|reflexivity].
  apply (f_equal length) in Hseq. rewrite length_seqZ in Hseq. simpl in Hseq. lia.
Qed.

Lemma quarter_range_expands_witness :
  quarter_range "2024-Q3" "2025-Q1" = Ok ["2024-Q3"; "2024-Q4"; "2025-Q1"].
Proof.
  rewrite (quarter_range_expands "2024-Q3" "2025-Q1" 2024 3 2025 1);
    [vm_compute; reflexivity | reflexivity | reflexivity
    | vm_compute; discriminate].
Defined.
(* ===================================================================== *)
(** ** The row projector *)
(* ===================================================================== *)

Section Strip.

Lemma lstrip_blank s : PyStr.blank (PyStr.lstrip s) = PyStr.blank s.
Proof.
  induction s as [|a s IH]; simpl; [done|].
  destruct (PyStr.is_space a) eqn:Ha; simpl; [done|].
  by rewrite Ha.
Qed.

Lemma rstrip_empty s : PyStr.rstrip s = EmptyString <-> PyStr.blank s = true.
Proof.
  induction s as [|a s IH]; simpl; [done|].
  destruct (PyStr.rstrip s) eqn:Hr.
  - destruct (PyStr.is_space a); simpl; [tauto|].
    split; discriminate.
  - split; [discriminate|].
    intros [_ Hb]%andb_prop. apply IH in Hb. discriminate.
Qed.

Lemma strip_empty s : PyStr.strip s = EmptyString <-> PyStr.blank s = true.
Proof. unfold PyStr.strip. by rewrite rstrip_empty, lstrip_blank. Qed.

Lemma strip_empty_bool s :
  bool_decide (PyStr.strip s = EmptyString) = PyStr.blank s.
Proof.
  destruct (PyStr.blank s) eqn:Hb.
  - apply bool_decide_eq_true, strip_empty, Hb.
  - apply bool_decide_eq_false. rewrite strip_empty. congruence.
Qed.

End Strip.

Lemma truthy_Some v : truthy v = true -> exists s, v = Some s /\ s <> EmptyString.
Proof.
  destruct v as [s|]; simpl; [|done].
  intros H%negb_true_iff%bool_decide_eq_false. eauto.
Qed.

Lemma or_empty_falsy v : truthy v = false -> or_empty v = EmptyString.
Proof.
  unfold or_empty, py_or. intros ->. done.
Qed.

Lemma or_empty_blank v : PyStr.blank (or_empty v) = field_blank v.
Proof.
  unfold or_empty, py_or. destruct (truthy v) eqn:Ht.
  - apply truthy_Some in Ht as (s & -> & _). done.
  - destruct v as [s|]; simpl in *; [|done].
    apply negb_false_iff, bool_decide_eq_true in Ht. by subst.
Qed.

(** Which records the loop skips. *)
Lemma project_None headers ctx record :
  project headers ctx record = None <->
  field_blank (record_get record "CU_NUMBER")
  && field_blank (record_get record "CU_Number")
  || whitespace_only (record_get record "CU_NUMBER") = true.
Proof.
  unfold project, first_of, whitespace_only.
  rewrite strip_empty_bool, or_empty_blank.
  set (a := record_get record "CU_NUMBER").
  set (b := record_get record "CU_Number").
  unfold py_or. destruct (truthy a) eqn:Ha.
  - destruct (field_blank a); simpl; [|split; discriminate].
    rewrite orb_true_r. done.
  - assert (field_blank a = true) as ->.
    { destruct a as [s|]; simpl in *; [|done].
      apply negb_false_iff, bool_decide_eq_true in Ha. by subst. }
    simpl. rewrite orb_false_r.
    destruct (field_blank b); split; done.
Qed.

Lemma spread_lookup record row header h :
  spread record row header !! h =
    if decide (h = header /\ header ∉ KEY_COLUMNS)
    then Some (passthrough (record_get_default record h))
    else row !! h.
Proof.
  unfold spread. destruct (decide (header ∈ KEY_COLUMNS)) as [Hk|Hk].
  - rewrite decide_False; [done|]. intros [_ ?]. done.
  - destruct (decide (h = header)) as [->|Hne].
    + rewrite decide_True by done. apply lookup_insert_eq.
    + rewrite decide_False by (intros [? _]; done).
      by apply lookup_insert_ne.
Qed.

Lemma spread_all_lookup record headers : forall row h,
  foldl (spread record) row headers !! h =
    if decide (h ∈ headers /\ h ∉ KEY_COLUMNS)
    then Some (passthrough (record_get_default record h))
    else row !! h.
Proof.
  induction headers as [|x headers IH] using rev_ind; intros row h.
  - cbn [foldl]. rewrite decide_False; [done|]. intros [H _]. by apply elem_of_nil in H.
  - rewrite foldl_app. cbn [foldl]. rewrite spread_lookup, IH.
    destruct (decide (h = x /\ x ∉ KEY_COLUMNS)) as [[-> Hk]|Hn].
    + rewrite decide_True; [done|]. split; [|done].
      apply elem_of_app. right. apply list_elem_of_singleton. done.
    + destruct (decide (h ∈ headers /\ h ∉ KEY_COLUMNS)) as [[Hin Hk]|Hn'].
      * rewrite decide_True; [done|]. split; [|done]. apply elem_of_app. by left.
      * rewrite decide_False; [done|].
        intros [[Hin|Hin%list_elem_of_singleton]%elem_of_app Hk].
        -- apply Hn'. done.
        -- subst. apply Hn. done.
Qed.

Lemma base_row_dom cu record ctx : dom (base_row cu record ctx) = metadata_columns.
Proof.
  unfold base_row, metadata_columns.
  rewrite !dom_insert_L, dom_empty_L.
  apply set_eq. intros x.
  rewrite !elem_of_union, !elem_of_singleton, elem_of_empty. tauto.
Qed.

Lemma metadata_in_KEY_COLUMNS : metadata_columns ⊆ KEY_COLUMNS.
Proof.
  intros x. unfold metadata_columns, KEY_COLUMNS.
  rewrite !elem_of_union, !elem_of_singleton. tauto.
Qed.

(** C3: a projected row carries exactly the metadata columns and the file
    headers outside [KEY_COLUMNS]; under each such header it holds the
    source text unchanged, or null where the source is the empty string (a
    field the line left unfilled, [None], stays null). *)
Theorem project_passthrough headers ctx record row :
  project headers ctx record = Some row ->
  dom row = metadata_columns ∪ (list_to_set headers ∖ KEY_COLUMNS)
  /\ forall h, h ∈ headers -> h ∉ KEY_COLUMNS ->
       (forall s, record !! h = Some (Some s) -> s <> EmptyString ->
                  row !! h = Some (VStr s))
       /\ (record !! h = Some (Some EmptyString) -> row !! h = Some VNone)
       /\ (record !! h = Some None \/ record !! h = None ->
           row !! h = Some VNone).
Proof.
  unfold project. case_bool_decide as Hcu; [discriminate|].
  intros [= <-]. split.
  - apply set_eq. intros h.
    rewrite elem_of_dom, spread_all_lookup, elem_of_union,
      elem_of_difference, elem_of_list_to_set,
      <- (base_row_dom (first_of record "CU_NUMBER" "CU_Number") record ctx),
      elem_of_dom.
    case_decide as Hd.
    + split; [intros _; by right|eauto].
    + split; [by left|]. intros [?|?]; done.
  - intros h Hin Hk. rewrite spread_all_lookup, decide_True by done.
    unfold record_get_default, passthrough.
    repeat split.
    + intros s -> Hs. by rewrite bool_decide_eq_false_2.
    + intros ->. done.
    + intros [-> | ->]; done.
Qed.

Lemma project_passthrough_witness :
  project (fieldnames assets_file) ctx_2025Q3 assets_record = Some assets_row
  /\ dom assets_row = metadata_columns
                      ∪ (list_to_set (fieldnames assets_file) ∖ KEY_COLUMNS)
  /\ assets_row !! "ASSETS" = Some (VStr "1000000").
Proof.
  assert (H : project (fieldnames assets_file) ctx_2025Q3 assets_record
              = Some assets_row) by reflexivity.
  destruct (project_passthrough _ _ _ _ H) as [Hdom Hval].
  split; [exact H|]. split; [exact Hdom|].
  destruct (Hval "ASSETS") as [Hs _].
  - cbn. rewrite !elem_of_cons. tauto.
  - apply (bool_decide_eq_false_1 ("ASSETS" ∈ KEY_COLUMNS)). reflexivity.
  - apply Hs; [reflexivity|discriminate].
Defined.

(** C2, as amended: a record yields no row when the identifier is empty
    after trimming under both header variants, and also when [CU_NUMBER]
    holds a non-empty string of whitespace only; in every other case, that
    is when some variant is non-empty after trimming and [CU_NUMBER] is not
    whitespace-only, it yields exactly one row. *)
Theorem identifier_decides_row headers ctx record :
  length (project_all headers ctx [record]) =
    if field_blank (record_get record "CU_NUMBER")
       && field_blank (record_get record "CU_Number")
       || whitespace_only (record_get record "CU_NUMBER")
    then 0%nat else 1%nat.
Proof.
  unfold project_all. cbn [omap list_omap].
  pose proof (project_None headers ctx record) as HN.
  destruct (project headers ctx record) as [row|].
  - destruct (_ || _); [|done].
    destruct HN as [_ HN]. by specialize (HN eq_refl).
  - destruct (_ || _); [done|].
    destruct HN as [HN _]. by specialize (HN eq_refl).
Qed.

(** C2, as stated, fails: the identifier is non-empty after trimming under
    the [CU_Number] variant, and the record yields no row. *)
Lemma nonblank_variant_dropped :
  record_get both_variants_record "CU_Number" = Some "12345"
  /\ PyStr.strip "12345" <> EmptyString
  /\ project_all ["CU_NUMBER"; "CU_Number"] ctx_2025Q3 [both_variants_record]
     = [].
Proof.
  split; [reflexivity|]. split; [vm_compute; discriminate|reflexivity].
Qed.

(** C10: a [CU_NUMBER] made of whitespace only is truthy, so [or] keeps it
    and never looks at [CU_Number]; the trimmed value is empty and the
    record is skipped, whatever [CU_Number] holds. *)
Theorem whitespace_cu_number_dropped headers ctx record s :
  record !! "CU_NUMBER" = Some (Some s) ->
  s <> EmptyString ->
  PyStr.blank s = true ->
  py_or (record_get record "CU_NUMBER") (record_get record "CU_Number")
    = Some s
  /\ project headers ctx record = None.
Proof.
  intros Hrec Hne Hblank.
  assert (Hget : record_get record "CU_NUMBER" = Some s).
  { unfold record_get. by rewrite Hrec. }
  assert (Htruthy : truthy (Some s) = true).
  { simpl. by rewrite bool_decide_eq_false_2. }
  split.
  - unfold py_or. by rewrite Hget, Htruthy.
  - apply project_None. unfold whitespace_only.
    rewrite Hget, Htruthy. simpl. rewrite Hblank. apply orb_true_r.
Qed.

Lemma whitespace_cu_number_dropped_witness :
  record_get both_variants_record "CU_Number" = Some "12345"
  /\ py_or (record_get both_variants_record "CU_NUMBER")
       (record_get both_variants_record "CU_Number") = Some " "
  /\ project ["CU_NUMBER"; "CU_Number"] ctx_2025Q3 both_variants_record
     = None.
Proof.
  split; [reflexivity|].
  apply (whitespace_cu_number_dropped _ _ both_variants_record " ");
    [reflexivity | discriminate | reflexivity].
Defined.
(* ===================================================================== *)
(** ** The column reconciler *)
(* ===================================================================== *)

Lemma new_columns_spec existing headers h :
  h ∈ new_columns existing headers <->
  h ∈ headers /\ (h ∉ existing) /\ (h ∉ KEY_COLUMNS).
Proof. unfold new_columns. rewrite list_elem_of_filter. tauto. Qed.



(** The additions are attempted in list order; on success all of them were. *)
Lemma add_columns_log {S} (b : Backend S) table cols : forall w r w',
  add_columns b table cols w = (r, w') ->
  exists done_, log w' = log w ++ (EAddTextColumn table <$> done_)
    /\ done_ `prefix_of` cols
    /\ (r = Ok tt -> done_ = cols).
Proof.
  induction cols as [|c cols IH]; intros w r w' Hrun.
  - injection Hrun as <- <-. exists []. rewrite app_nil_r. done.
  - cbn [add_columns] in Hrun. unfold bind at 1, call in Hrun.
    destruct (add_text_column b table c (ext w)) as [[[]|e] s1] eqn:Hadd.
    + apply IH in Hrun as (done_ & Hlog & Hpre & Hall). cbn [log] in Hlog.
      exists (c :: done_). rewrite Hlog, <- app_assoc. repeat split.
      * by apply prefix_cons.
      * intros Hr. by rewrite Hall.
    + injection Hrun as <- <-. exists [c]. repeat split.
      * apply prefix_cons, prefix_nil.
      * discriminate.
Qed.

Lemma upserts_of_app l1 l2 : upserts_of (l1 ++ l2) = upserts_of l1 ++ upserts_of l2.
Proof. apply omap_app. Qed.

Lemma batch_errors_of_app l1 l2 :
  batch_errors_of (l1 ++ l2) = batch_errors_of l1 ++ batch_errors_of l2.
Proof. apply omap_app. Qed.

Lemma upserts_of_adds table cols : upserts_of (EAddTextColumn table <$> cols) = [].
Proof. induction cols; done. Qed.

Lemma batch_errors_of_adds table cols :
  batch_errors_of (EAddTextColumn table <$> cols) = [].
Proof. induction cols; done. Qed.

(** Reconciliation, whatever its outcome: it only adds to the log, writes
    no row and reports no batch error; when it returns, the log grew by
    the listing followed by [reconcile_events]. *)
Lemma ensure_columns_log {S} (b : Backend S) table headers w r w' :
  ensure_columns b table headers w = (r, w') ->
  exists pre,
    log w' = log w ++ EGetColumnNames table :: pre
    /\ upserts_of pre = [] /\ batch_errors_of pre = []
    /\ (r = Ok tt ->
        exists data,
          (get_column_names b table (ext w)).1 = Ok data
          /\ pre = reconcile_events table
                     (new_columns (existing_columns data) headers)).
Proof.
  unfold ensure_columns. unfold bind at 1, call at 1.
  destruct (get_column_names b table (ext w)) as [[data|e] s1] eqn:Hget;
    cbn [fst].
  2:{ intros [= <- <-]. exists []. repeat split; try done. }
  destruct (new_columns (existing_columns data) headers) as [|c cols] eqn:Hnew.
  { intros [= <- <-]. exists []. repeat split; try done.
    intros _. exists data. by rewrite Hnew. }
  unfold bind at 1, emit at 1.
  set (w1 := Build_World _ _).
  unfold bind at 1.
  destruct (add_columns b table (c :: cols) w1) as [[[]|e] w2] eqn:Hadd.
  2:{ intros [= <- <-].
      apply add_columns_log in Hadd as (done_ & Hlog & _ & _).
      exists (EPrint (LAddingColumns (length (c :: cols)) table)
              :: (EAddTextColumn table <$> done_)).
      rewrite Hlog. subst w1. cbn [log]. rewrite <- !app_assoc.
      repeat split; try done.
      - cbn. apply upserts_of_adds.
      - cbn. apply batch_errors_of_adds. }
  apply add_columns_log in Hadd as (done_ & Hlog & _ & Hall).
  rewrite (Hall eq_refl) in Hlog. clear Hall done_.
  unfold bind at 1, call at 1.
  destruct (reload_schema_cache b (ext w2)) as [[[]|e] s3] eqn:Hreload.
  - unfold emit. intros [= <- <-]. cbn [log].
    exists (reconcile_events table (c :: cols)).
    rewrite Hlog. subst w1. cbn [log]. rewrite <- !app_assoc.
    repeat split; try done.
    + unfold reconcile_events. rewrite !upserts_of_app, upserts_of_adds. done.
    + unfold reconcile_events.
      rewrite !batch_errors_of_app, batch_errors_of_adds. done.
    + intros _. exists data. by rewrite Hnew.
  - intros [= <- <-]. cbn [log].
    exists ([EPrint (LAddingColumns (length (c :: cols)) table)]
            ++ (EAddTextColumn table <$> c :: cols) ++ [EReloadSchemaCache]).
    rewrite Hlog. subst w1. cbn [log]. rewrite <- !app_assoc.
    repeat split; try done.
    + rewrite !upserts_of_app, upserts_of_adds. done.
    + rewrite !batch_errors_of_app, batch_errors_of_adds. done.
Qed.
(* ===================================================================== *)
(** ** The batch upsert loop *)
(* ===================================================================== *)


(** A loop that returns has submitted every batch, in order, and has
    printed one error line per failing response; its result is the number
    of those lines added to the count it started from. *)
Lemma upsert_batches_ok {S} (b : Backend S) table bs : forall errors w n w',
  upsert_batches b table bs errors w = (Ok n, w') ->
  exists tail,
    log w' = log w ++ tail
    /\ upserts_of tail = (fun batch => (table, batch)) <$> bs
    /\ batch_errors_of tail =
         (fun cause => (table, cause))
         <$> omap id (upsert_responses b table bs (ext w))
    /\ length (upsert_responses b table bs (ext w)) = length bs
    /\ n = (errors + length (omap id (upsert_responses b table bs (ext w))))%nat.
Proof.
  induction bs as [|batch bs IH]; intros errors w n w' Hrun.
  - injection Hrun as <- <-. exists []. rewrite app_nil_r. cbn.
    repeat split; try done; lia.
  - cbn [upsert_batches] in Hrun. unfold bind at 1, call at 1 in Hrun.
    cbn [upsert_responses].
    destruct (upsert b table batch (ext w)) as [[[cause|]|e] s1];
      [| |discriminate].
    + unfold bind at 1, emit at 1 in Hrun.
      apply IH in Hrun as (tail & Hlog & Hups & Herr & Hlen & Hn).
      cbn [log ext] in *.
      exists (EUpsert table batch :: EPrint (LBatchError table cause) :: tail).
      rewrite Hlog, <- !app_assoc.
      unfold upserts_of, batch_errors_of in *. cbn.
      rewrite Hups, Herr, Hlen. repeat split; try done; lia.
    + apply IH in Hrun as (tail & Hlog & Hups & Herr & Hlen & Hn).
      cbn [log ext] in *.
      exists (EUpsert table batch :: tail).
      rewrite Hlog, <- !app_assoc.
      unfold upserts_of, batch_errors_of in *. cbn.
      rewrite Hups, Herr, Hlen. repeat split; try done.
Qed.

(** When the write path answers every call, the loop returns. *)
Lemma upsert_batches_returns {S} (b : Backend S) table bs :
  upsert_answers b ->
  forall errors w, exists n w', upsert_batches b table bs errors w = (Ok n, w').
Proof.
  intros Hans. induction bs as [|batch bs IH]; intros errors w.
  - eexists _, _. reflexivity.
  - cbn [upsert_batches]. unfold bind at 1, call at 1.
    destruct (Hans table batch (ext w)) as (resp & s1 & ->).
    destruct resp as [cause|].
    + unfold bind at 1, emit at 1. apply IH.
    + apply IH.
Qed.

(** The batches are contiguous slices that cover the list. *)
Lemma chunks_concat {A} (n : nat) : forall (m : nat) (l : list A),
  (0 < n)%nat -> (length l <= m * n)%nat ->
  concat ((fun i => take n (drop i l)) <$> ((fun k => k * n)%nat <$> seq 0 m)) = l.
Proof.
  intros m l Hn. revert l.
  induction m as [|m IH]; intros l Hlen.
  - destruct l; [done|]. simpl in Hlen. lia.
  - cbn [seq]. rewrite !fmap_cons. cbn [concat].
    rewrite Nat.mul_0_l, drop_0.
    rewrite <- seq_shift, <- !list_fmap_compose.
    etransitivity; [|apply (take_drop n l)]. f_equal.
    etransitivity; [|apply (IH (drop n l)); rewrite length_drop; lia].
    f_equal. rewrite <- list_fmap_compose.
    apply list_fmap_ext. intros _ k _. cbn.
    rewrite drop_drop. f_equal.
Qed.

Lemma batches_concat rows : concat (batches rows) = rows.
Proof.
  unfold batches, range_step. apply chunks_concat; unfold BATCH_SIZE; [lia|].
  pose proof (Nat.div_mod_eq (length rows + 200 - 1) 200) as Hd.
  pose proof (Nat.mod_upper_bound (length rows + 200 - 1) 200). lia.
Qed.

(** The loop on any write path: it submits the batches in order up to and
    including the first call that raises, prints one error line, with the
    cause, per failing response, and returns the number of failing
    responses when every call answered; a call that raises ends it. *)
Lemma upsert_batches_outcome {St} (b : Backend St) table bs :
  forall errors w r w',
  upsert_batches b table bs errors w = (r, w') ->
  let resps := upsert_responses b table bs (ext w) in
  exists tail,
    log w' = log w ++ tail
    /\ upserts_of tail
       = (fun batch => (table, batch)) <$> take (S (length resps)) bs
    /\ batch_errors_of tail
       = (fun cause => (table, cause)) <$> omap id resps
    /\ (length resps <= length bs)%nat
    /\ (length resps = length bs ->
        r = Ok (errors + length (omap id resps))%nat)
    /\ ((length resps < length bs)%nat -> exists e, r = Raise e).
Proof.
  induction bs as [|batch bs IH]; intros errors w r w' Hrun; cbv zeta.
  - injection Hrun as <- <-. exists []. rewrite app_nil_r. cbn.
    split_and!; try done.
    + intros _. f_equal. lia.
    + lia.
  - cbn [upsert_batches] in Hrun. unfold bind at 1, call at 1 in Hrun.
    cbn [upsert_responses].
    destruct (upsert b table batch (ext w)) as [[[cause|]|e] s1].
    + unfold bind at 1, emit at 1 in Hrun.
      apply IH in Hrun as (tail & Hlog & Hups & Herr & Hle & Hall & Hsome).
      cbn [log ext] in *.
      exists (EUpsert table batch :: EPrint (LBatchError table cause) :: tail).
      rewrite Hlog, <- !app_assoc.
      unfold upserts_of, batch_errors_of in *. cbn.
      rewrite Hups, Herr. split_and!; try done.
      * lia.
      * intros Hlen. rewrite Hall by lia. f_equal. lia.
      * intros Hlen. apply Hsome. lia.
    + apply IH in Hrun as (tail & Hlog & Hups & Herr & Hle & Hall & Hsome).
      cbn [log ext] in *.
      exists (EUpsert table batch :: tail).
      rewrite Hlog, <- !app_assoc.
      unfold upserts_of, batch_errors_of in *. cbn.
      rewrite Hups, Herr. split_and!; try done.
      * lia.
      * intros Hlen. rewrite Hall by lia. done.
      * intros Hlen. apply Hsome. lia.
    + injection Hrun as <- <-. exists [EUpsert table batch]. cbn.
      split_and!; try done.
      * lia.
      * intros _. eauto.
Qed.

(** C6, as amended: a batch failure reported in the response is printed
    with its cause and counted, and the loop goes on: every batch is
    submitted, in order, up to and including the first call that raises.
    When every call answers, all the batches of the file, which cover all
    its rows, are submitted whichever of them fail, and the error count is
    the number of failing responses.  An exception raised by a call is not
    caught: the loop ends with it, nothing is recorded for that batch and
    the batches after it are not submitted. *)
Theorem batch_failure_isolation {St} (b : Backend St) table rows w r w' :
  upsert_batches b table (batches rows) 0 w = (r, w') ->
  let resps := upsert_responses b table (batches rows) (ext w) in
  concat (batches rows) = rows
  /\ upserts_of (log w') =
       upserts_of (log w)
       ++ ((fun batch => (table, batch))
           <$> take (S (length resps)) (batches rows))
  /\ batch_errors_of (log w') =
       batch_errors_of (log w)
       ++ ((fun cause => (table, cause)) <$> omap id resps)
  /\ (length resps <= length (batches rows))%nat
  /\ (length resps = length (batches rows) ->
      take (S (length resps)) (batches rows) = batches rows
      /\ r = Ok (length (omap id resps)))
  /\ ((length resps < length (batches rows))%nat -> exists e, r = Raise e).
Proof.
  intros Hrun resps.
  apply upsert_batches_outcome in Hrun
    as (tail & Hlog & Hups & Herr & Hle & Hall & Hsome).
  fold resps in Hups, Herr, Hle, Hall, Hsome.
  rewrite Hlog, upserts_of_app, batch_errors_of_app, Hups, Herr.
  split_and!; try done.
  - apply batches_concat.
  - intros Hlen. split; [|by apply Hall].
    apply take_ge. lia.
Qed.

Lemma batch_failure_isolation_witness :
  let run := upsert_batches (scripted_backend (fail_only 1)) "bronze_foicu"
               (batches (replicate 401 ∅)) 0 (Build_World 0%nat []) in
  run.1 = Ok 1%nat
  /\ (fun tb => length tb.2) <$> upserts_of (log run.2) = [200; 200; 1]%nat
  /\ batch_errors_of (log run.2) = [("bronze_foicu", "injected failure")].
Proof.
  intros run.
  destruct (batch_failure_isolation (scripted_backend (fail_only 1))
              "bronze_foicu" (replicate 401 ∅) (Build_World 0%nat [])
              run.1 run.2 (surjective_pairing run))
    as (_ & Hups & Herr & _ & Hall & _).
  destruct Hall as [_ Hres]; [vm_compute; reflexivity|].
  rewrite Hres, Hups, Herr. vm_compute. done.
Defined.

(** C6, as stated, fails: the call for the second of three batches raises;
    the loop ends with that exception, the third batch is never submitted
    and no failure is recorded. *)
Lemma raised_failure_aborts_batches :
  let run := upsert_batches (raising_backend 1) "bronze_foicu"
               (batches (replicate 401 ∅)) 0 (Build_World 0%nat []) in
  length (batches (replicate 401 (∅ : Row))) = 3%nat
  /\ run.1 = Raise (Raised "APIError")
  /\ (fun tb => length tb.2) <$> upserts_of (log run.2) = [200; 200]%nat
  /\ batch_errors_of (log run.2) = [].
Proof. vm_compute. done. Qed.
(* ===================================================================== *)
(** ** Per-file ingestion *)
(* ===================================================================== *)

Lemma ingest_file_missing {S} (b : Backend S) data_dir fname table ctx w :
  data_dir !! fname = None ->
  ingest_file b data_dir fname table ctx w
  = (Ok 0%nat, Build_World (ext w) (log w ++ [EPrint (LNotFound fname)])).
Proof. intros Hnone. unfold ingest_file. rewrite Hnone. reflexivity. Qed.

(** A reconciliation that raises ends the file there. *)
Lemma ingest_file_reconcile_raises {S} (b : Backend S) data_dir fname table
  ctx f w e w1 :
  data_dir !! fname = Some f ->
  ensure_columns b table (fieldnames f) w = (Raise e, w1) ->
  ingest_file b data_dir fname table ctx w = (Raise e, w1).
Proof.
  intros Hf Hrec. unfold ingest_file. rewrite Hf.
  unfold bind at 1. by rewrite Hrec.
Qed.

(** After a reconciliation that returns, the file is projected, written in
    batches and summed up. *)
Lemma ingest_file_after_reconcile {S} (b : Backend S) data_dir fname table
  ctx f w w1 :
  data_dir !! fname = Some f ->
  ensure_columns b table (fieldnames f) w = (Ok tt, w1) ->
  ingest_file b data_dir fname table ctx w =
    let rows := project_all (fieldnames f) ctx (records f) in
    match upsert_batches b table (batches rows) 0 w1 with
    | (Ok errors, w2) =>
        (Ok (length rows),
         Build_World (ext w2)
           (log w2 ++ [EPrint (LFileSummary fname table (length rows)
                                 (length (fieldnames f)) errors)]))
    | (Raise e, w2) => (Raise e, w2)
    end.
Proof.
  intros Hf Hrec. unfold ingest_file. rewrite Hf.
  unfold bind at 1. rewrite Hrec. unfold bind at 1.
  destruct (upsert_batches _ _ _ _ _) as [[errors|e] w2]; reflexivity.
Qed.



(** On a table that already has the file's columns nothing is missing, and
    the listing that establishes it is the only call made to the registry. *)
Lemma reconcile_lists_columns_first :
  new_columns
    (existing_columns
       (Some (elements (KEY_COLUMNS ∪ {[ "CU_NUMBER"; "CYCLE_DATE"; "ASSETS" ]}))))
    (fieldnames assets_file) = []
  /\ (get_column_names spec_backend "bronze_foicu" synced_foicu).1
     = Ok (Some (elements (KEY_COLUMNS ∪ {[ "CU_NUMBER"; "CYCLE_DATE"; "ASSETS" ]})))
  /\ registry_calls_of
       (log (ensure_columns spec_backend "bronze_foicu"
               (fieldnames assets_file) (Build_World synced_foicu [])).2)
     = [EGetColumnNames "bronze_foicu"].
Proof. vm_compute. done. Qed.

(** C8, as amended: per-file ingestion returns one number, the count of
    projected rows (0 for a missing file), whether or not their batches
    failed.  The number of failed batches is not returned: it is the error
    count of the summary line, the last line printed, and it equals the
    number of responses that carried an error; each of them is printed, in
    order, with the table and its cause. *)
Theorem ingest_file_returns_row_count {S} (b : Backend S) data_dir fname
  table ctx w n w' :
  ingest_file b data_dir fname table ctx w = (Ok n, w') ->
  match data_dir !! fname with
  | None => n = 0%nat /\ log w' = log w ++ [EPrint (LNotFound fname)]
  | Some f =>
      let rows := project_all (fieldnames f) ctx (records f) in
      n = length rows
      /\ exists w1,
           ensure_columns b table (fieldnames f) w = (Ok tt, w1)
           /\ let resps :=
                upsert_responses b table (batches rows) (ext w1) in
              length resps = length (batches rows)
              /\ last (log w') =
                   Some (EPrint (LFileSummary fname table n
                                   (length (fieldnames f))
                                   (length (omap id resps))))
              /\ batch_errors_of (log w') =
                   batch_errors_of (log w)
                   ++ ((fun cause => (table, cause)) <$> omap id resps)
  end.
Proof.
  intros Hrun. destruct (data_dir !! fname) as [f|] eqn:Hf.
  - destruct (ensure_columns b table (fieldnames f) w) as [[[]|e] w1] eqn:Hrec.
    2:{ rewrite (ingest_file_reconcile_raises _ _ _ _ _ _ _ _ _ Hf Hrec) in Hrun.
        discriminate. }
    rewrite (ingest_file_after_reconcile _ _ _ _ _ _ _ _ Hf Hrec) in Hrun.
    cbv zeta in Hrun. cbv zeta.
    destruct (upsert_batches _ _ _ _ _) as [[errors|e] w2] eqn:Hup;
      [|discriminate].
    injection Hrun as <- <-. split; [done|].
    apply upsert_batches_ok in Hup as (tail & Hlog & _ & Herr & Hlen & Hn).
    apply ensure_columns_log in Hrec as (pre & Hlog1 & _ & Hquiet & _).
    exists w1. split; [done|]. cbn [log].
    split; [exact Hlen|]. split.
    + rewrite last_snoc. do 3 f_equal. lia.
    + rewrite batch_errors_of_app, Hlog, batch_errors_of_app, Hlog1,
        batch_errors_of_app.
      change (batch_errors_of (EGetColumnNames table :: pre))
        with (batch_errors_of pre).
      change (batch_errors_of [EPrint (LFileSummary _ _ _ _ _)])
        with (@nil (string * string)).
      by rewrite Hquiet, Herr, !app_nil_r.
  - rewrite (ingest_file_missing _ _ _ _ _ _ Hf) in Hrun.
    by injection Hrun as <- <-.
Qed.

Lemma ingest_file_returns_row_count_witness :
  let run := ingest_file (faulty_backend all_batches_fail) assets_dir
               "FOICU.txt" "bronze_foicu" ctx_2025Q3
               (Build_World empty_foicu []) in
  run.1 = Ok 1%nat
  /\ 1%nat = length (project_all (fieldnames assets_file) ctx_2025Q3
                       (records assets_file))
  /\ batch_errors_of (log run.2) = [("bronze_foicu", "boom")].
Proof.
  intros run.
  assert (Hres : run.1 = Ok 1%nat) by (vm_compute; reflexivity).
  split; [exact Hres|].
  pose proof (ingest_file_returns_row_count
                (faulty_backend all_batches_fail) assets_dir "FOICU.txt"
                "bronze_foicu" ctx_2025Q3 (Build_World empty_foicu [])
                1%nat run.2) as H.
  change (assets_dir !! "FOICU.txt") with (Some assets_file) in H.
  destruct H as (Hn & w1 & _ & _ & _ & Herr).
  { rewrite <- Hres. apply surjective_pairing. }
  split; [exact Hn|]. vm_compute. reflexivity.
Defined.

(** C8, as stated, fails: the returned number is neither the number of rows
    written nor a carrier of the error count.  With every batch failing the
    file returns 1, no row is stored and one error is reported; with no
    batch failing it returns 1 as well. *)
Lemma row_count_hides_failures :
  let run f :=
    ingest_file (faulty_backend f) assets_dir "FOICU.txt" "bronze_foicu"
      ctx_2025Q3 (Build_World empty_foicu []) in
  (run all_batches_fail).1 = Ok 1%nat
  /\ batch_errors_of (log (run all_batches_fail).2) = [("bronze_foicu", "boom")]
  /\ (stored <$> tables (ext (run all_batches_fail).2) !! "bronze_foicu")
     = Some []
  /\ (run no_faults).1 = Ok 1%nat
  /\ batch_errors_of (log (run no_faults).2) = [].
Proof. vm_compute. done. Qed.
(* ===================================================================== *)
(** ** Periods and the run *)
(* ===================================================================== *)

(** An exception in one file ends the loop over the files. *)
Lemma ingest_files_raise {S} (b : Backend S) data_dir ctx pre : forall
  fname table post total w t w1 e w2,
  ingest_files b data_dir ctx pre total w = (Ok t, w1) ->
  ingest_file b data_dir fname table ctx w1 = (Raise e, w2) ->
  ingest_files b data_dir ctx (pre ++ (fname, table) :: post) total w
  = (Raise e, w2).
Proof.
  induction pre as [|[fn tn] pre IH];
    intros fname table post total w t w1 e w2 Hpre Hfile.
  - injection Hpre as <- <-. cbn. unfold bind at 1. by rewrite Hfile.
  - cbn in *. unfold bind at 1. unfold bind at 1 in Hpre.
    destruct (ingest_file b data_dir fn tn ctx w) as [[n|e'] w'];
      [|discriminate].
    eapply IH; eauto.
Qed.

(** An exception in one period ends the loop over the periods. *)
Lemma import_quarters_raise {S} (b : Backend S) done_ : forall q rest total w
  t w1 e w2,
  import_quarters b done_ total w = (Ok t, w1) ->
  import_quarter b q w1 = (Raise e, w2) ->
  import_quarters b (done_ ++ q :: rest) total w = (Raise e, w2).
Proof.
  induction done_ as [|q0 done_ IH]; intros q rest total w t w1 e w2 Hpre Hq.
  - injection Hpre as <- <-. cbn. unfold bind at 1. by rewrite Hq.
  - cbn in *. unfold bind at 1. unfold bind at 1 in Hpre.
    destruct (import_quarter b q0 w) as [[n|e'] w']; [|discriminate].
    eapply IH; eauto.
Qed.

Lemma main_import_raise {S} (b : Backend S) quarters w e w' :
  import_quarters b quarters 0
    (Build_World (ext w) (log w ++ [EPrint (LQuartersToImport quarters)]))
  = (Raise e, w') ->
  main_import b quarters w = (Raise e, w').
Proof.
  intros Hrun. unfold main_import. unfold bind at 1, emit at 1.
  unfold bind at 1. by rewrite Hrun.
Qed.

(** What [import_quarter] does once the archive is there. *)
Lemma import_quarter_with_archive {S} (b : Backend S) q y qn w tmp_ dir url wd :
  parse_quarter q = Ok (y, qn) ->
  download_and_extract b y qn
    (Build_World (ext w) (log w ++ [EPrint (LBanner q)]))
  = (Ok (tmp_, dir, url), wd) ->
  import_quarter b q w =
    match ingest_files b dir
            {| year := y; quarter := qn; period := q; source_url := url |}
            SOURCE_FILES 0 wd with
    | (Ok total, w1) =>
        (Ok total,
         Build_World (ext w1)
           (log w1 ++ [ERmtree tmp_; EPrint (LComplete total q)]))
    | (Raise e, w1) =>
        (Raise e, Build_World (ext w1) (log w1 ++ [ERmtree tmp_]))
    end.
Proof.
  intros Hparse Hdl. unfold import_quarter.
  unfold bind at 1, lift at 1. rewrite Hparse.
  unfold bind at 1, emit at 1. unfold bind at 1. rewrite Hdl.
  unfold bind at 1, try_finally.
  destruct (ingest_files _ _ _ _ _ _) as [[total|e] w1]; cbn.
  - unfold bind, emit, ret. cbn. by rewrite <- app_assoc.
  - reflexivity.
Qed.

Lemma import_quarter_no_archive {S} (b : Backend S) q y qn w e wd :
  parse_quarter q = Ok (y, qn) ->
  download_and_extract b y qn
    (Build_World (ext w) (log w ++ [EPrint (LBanner q)]))
  = (Raise e, wd) ->
  import_quarter b q w = (Raise e, wd).
Proof.
  intros Hparse Hdl. unfold import_quarter.
  unfold bind at 1, lift at 1. rewrite Hparse.
  unfold bind at 1, emit at 1. unfold bind at 1. by rewrite Hdl.
Qed.

(** C5, as amended: an exception raised during the reconciliation of a file
    is not caught anywhere.  It ends that file, the remaining files of the
    period, and, after the temporary directory is removed, the remaining
    periods: the run stops with that exception, in the state the failing
    registry call left, with nothing appended to the log but the removal. *)
Theorem schema_error_aborts_run {S} (b : Backend S) done_ q rest y qn
  tmp_ dir url before fname table after f e w w0 wd w1 w2 t0 t1 :
  import_quarters b done_ 0
    (Build_World (ext w) (log w ++ [EPrint (LQuartersToImport
                                              (done_ ++ q :: rest))]))
  = (Ok t0, w0) ->
  parse_quarter q = Ok (y, qn) ->
  download_and_extract b y qn
    (Build_World (ext w0) (log w0 ++ [EPrint (LBanner q)]))
  = (Ok (tmp_, dir, url), wd) ->
  SOURCE_FILES = before ++ (fname, table) :: after ->
  ingest_files b dir
    {| year := y; quarter := qn; period := q; source_url := url |}
    before 0 wd = (Ok t1, w1) ->
  dir !! fname = Some f ->
  ensure_columns b table (fieldnames f) w1 = (Raise e, w2) ->
  main_import b (done_ ++ q :: rest) w
  = (Raise e, Build_World (ext w2) (log w2 ++ [ERmtree tmp_])).
Proof.
  intros Hdone Hparse Hdl Hfiles Hbefore Hf Hrec.
  apply main_import_raise.
  eapply import_quarters_raise; [exact Hdone|].
  rewrite (import_quarter_with_archive _ _ _ _ _ _ _ _ _ Hparse Hdl).
  rewrite Hfiles.
  erewrite ingest_files_raise; [reflexivity|exact Hbefore|].
  by apply ingest_file_reconcile_raises with f.
Qed.

(** C7, as amended: a failure to obtain the archive of a period is not
    caught anywhere.  The run stops with that exception at the failed
    download; no later period of the list is started. *)
Theorem archive_failure_aborts_run {S} (b : Backend S) done_ q rest y qn e
  w w0 wd t0 :
  import_quarters b done_ 0
    (Build_World (ext w) (log w ++ [EPrint (LQuartersToImport
                                              (done_ ++ q :: rest))]))
  = (Ok t0, w0) ->
  parse_quarter q = Ok (y, qn) ->
  download_and_extract b y qn
    (Build_World (ext w0) (log w0 ++ [EPrint (LBanner q)]))
  = (Raise e, wd) ->
  main_import b (done_ ++ q :: rest) w = (Raise e, wd).
Proof.
  intros Hdone Hparse Hdl.
  apply main_import_raise.
  eapply import_quarters_raise; [exact Hdone|].
  by apply import_quarter_no_archive with y qn.
Qed.


Lemma schema_error_aborts_run_witness :
  (main_import (faulty_backend assets_rejected) ["2025-Q3"; "2025-Q1"]
     (Build_World two_table_store [])).1
  = Raise (Raised "SchemaMutationError").
Proof.
  set (b := faulty_backend assets_rejected).
  set (w := Build_World two_table_store []).
  set (w0 := Build_World (ext w)
               (log w ++ [EPrint (LQuartersToImport ["2025-Q3"; "2025-Q1"])])).
  set (dl := download_and_extract b 2025 3
               (Build_World (ext w0) (log w0 ++ [EPrint (LBanner "2025-Q3")]))).
  set (rec := ensure_columns b "bronze_foicu" (fieldnames assets_file) dl.2).
  pose proof (schema_error_aborts_run b [] "2025-Q3" ["2025-Q1"] 2025 3
                (tmp two_file_archive) (top two_file_archive) url_2025Q3
                [] "FOICU.txt" "bronze_foicu" (tail SOURCE_FILES) assets_file
                (Raised "SchemaMutationError") w w0 dl.2 dl.2 rec.2
                0%nat 0%nat) as H.
  cbn [app] in H. rewrite H.
  - reflexivity.
  - reflexivity.
  - reflexivity.
  - rewrite (surjective_pairing dl). f_equal; reflexivity.
  - reflexivity.
  - reflexivity.
  - reflexivity.
  - rewrite (surjective_pairing rec). f_equal; reflexivity.
Defined.

(** C5, as stated, fails: the registry rejects a column of the first file;
    the run ends with that exception, the second file of the period is
    never started, and neither is the second period. *)
Lemma schema_error_stops_everything :
  let run :=
    main_import (faulty_backend assets_rejected) ["2025-Q3"; "2025-Q1"]
      (Build_World two_table_store []) in
  (fieldnames <$> top two_file_archive !! "FS220.txt")
  = Some ["CU_NUMBER"; "ACCT_010"]
  /\ run.1 = Raise (Raised "SchemaMutationError")
  /\ tables_started (log run.2) = ["bronze_foicu"]
  /\ fetches_of (log run.2) = [url_2025Q3].
Proof. vm_compute. done. Qed.

Lemma archive_failure_aborts_run_witness :
  (main_import spec_backend ["2024-Q4"; "2025-Q1"]
     (Build_World two_table_store [])).1
  = Raise (Raised "HTTPError").
Proof.
  set (w := Build_World two_table_store []).
  set (w0 := Build_World (ext w)
               (log w ++ [EPrint (LQuartersToImport ["2024-Q4"; "2025-Q1"])])).
  set (dl := download_and_extract spec_backend 2024 4
               (Build_World (ext w0) (log w0 ++ [EPrint (LBanner "2024-Q4")]))).
  pose proof (archive_failure_aborts_run spec_backend [] "2024-Q4"
                ["2025-Q1"] 2024 4 (Raised "HTTPError") w w0 dl.2 0%nat) as H.
  cbn [app] in H. rewrite H.
  - reflexivity.
  - reflexivity.
  - reflexivity.
  - rewrite (surjective_pairing dl). f_equal; reflexivity.
Defined.

(** C7, as stated, fails: the archive of the first period cannot be
    obtained; the run ends with that exception and the second period, whose
    archive is published, is never requested. *)
Lemma archive_failure_stops_everything :
  let run :=
    main_import spec_backend ["2024-Q4"; "2025-Q1"]
      (Build_World two_table_store []) in
  (tmp <$> archives two_table_store !! url_2025Q1) = Some "/tmp/ncua-bronze"
  /\ run.1 = Raise (Raised "HTTPError")
  /\ fetches_of (log run.2) = [url_2024Q4]
  /\ upserts_of (log run.2) = [].
Proof. vm_compute. done. Qed.
(* ===================================================================== *)
(** ** The storage model: uniqueness of the key and idempotence *)
(* ===================================================================== *)

Section Upsert.

Implicit Types (r s : Row) (t l : list Row).

Lemma key_of_union r s : key_of s = key_of r -> key_of (r ∪ s) = key_of s.
Proof.
  unfold key_of. intros [= H1 H2 H3].
  rewrite !lookup_union, <- H1, <- H2, <- H3.
  by destruct (s !! "cu_number"), (s !! "year"), (s !! "quarter").
Qed.

(** An upsert keeps the keys in place and adds the key at the end when it
    is new. *)
Lemma upsert_row_keys r t :
  key_of <$> upsert_row r t =
    if decide (key_of r ∈ key_of <$> t) then key_of <$> t
    else (key_of <$> t) ++ [key_of r].
Proof.
  induction t as [|s t IH]; cbn [upsert_row].
  - rewrite decide_False; [done|]. cbn. apply not_elem_of_nil.
  - destruct (decide (key_of s = key_of r)) as [Heq|Hne].
    + rewrite !fmap_cons, key_of_union by done.
      rewrite decide_True; [done|]. rewrite Heq. apply list_elem_of_here.
    + rewrite !fmap_cons, IH.
      destruct (decide (key_of r ∈ key_of <$> t)) as [Hin|Hin].
      * rewrite decide_True; [done|]. by apply list_elem_of_further.
      * rewrite decide_False; [done|].
        intros [?|?]%elem_of_cons; congruence.
Qed.

Lemma upsert_row_NoDup r t :
  NoDup (key_of <$> t) -> NoDup (key_of <$> upsert_row r t).
Proof.
  intros Hnd. rewrite upsert_row_keys. case_decide; [done|].
  apply NoDup_app. split_and!; [done| |apply NoDup_singleton].
  intros k Hk ->%list_elem_of_singleton. done.
Qed.

Lemma upsert_rows_NoDup l : forall t,
  NoDup (key_of <$> t) -> NoDup (key_of <$> upsert_rows l t).
Proof.
  unfold upsert_rows.
  induction l as [|r l IH]; intros t Hnd; cbn [foldl]; [done|].
  by apply IH, upsert_row_NoDup.
Qed.

(** Upserting never removes a row. *)
Lemma upsert_row_length r t :
  length (upsert_row r t) =
    if decide (key_of r ∈ key_of <$> t) then length t else S (length t).
Proof.
  rewrite <- (length_fmap key_of), upsert_row_keys.
  case_decide; rewrite ?length_app, !length_fmap; cbn; lia.
Qed.

Lemma merge_key_union k l : forall s,
  merge_key k l s = merge_key k l ∅ ∪ s.
Proof.
  unfold merge_key.
  induction l as [|r l IH]; intros s; cbn [foldl].
  - by rewrite (left_id_L ∅ (∪)).
  - case_decide; [|apply IH].
    rewrite IH, (IH (r ∪ ∅)), (right_id_L ∅ (∪)).
    by rewrite (assoc_L (∪)).
Qed.

Lemma merge_key_idemp k l s :
  merge_key k l (merge_key k l s) = merge_key k l s.
Proof.
  rewrite (merge_key_union k l s), (merge_key_union k l (_ ∪ s)).
  by rewrite (assoc_L (∪)), (idemp_L (∪)).
Qed.

Lemma merge_key_keeps_key k l : forall s,
  key_of s = k -> key_of (merge_key k l s) = k.
Proof.
  unfold merge_key.
  induction l as [|r l IH]; intros s Hs; cbn [foldl]; [done|].
  case_decide as Hk; [|by apply IH].
  apply IH. rewrite key_of_union; congruence.
Qed.

Lemma merge_key_key l s : key_of (merge_key (key_of s) l s) = key_of s.
Proof. by apply merge_key_keeps_key. Qed.

(** A batch sequence acts on the first row of the table through the rows
    that carry its key, and on the rest of the table through the other
    rows. *)
Lemma upsert_rows_cons l : forall s t,
  upsert_rows l (s :: t) =
    merge_key (key_of s) l s :: upsert_rows (other_keys (key_of s) l) t.
Proof.
  unfold upsert_rows, merge_key, other_keys.
  induction l as [|r l IH]; intros s t; cbn [foldl upsert_row]; [done|].
  destruct (decide (key_of s = key_of r)) as [Heq|Hne].
  - rewrite IH, key_of_union by done.
    rewrite decide_True by done.
    rewrite filter_cons_False; [done|]. intros Hn. by apply Hn.
  - rewrite IH. rewrite decide_False by done.
    rewrite filter_cons_True by done. done.
Qed.

Lemma other_keys_length k l : (length (other_keys k l) <= length l)%nat.
Proof. apply length_filter. Qed.

Lemma upsert_rows_nil_idemp (n : nat) : forall l,
  (length l <= n)%nat ->
  upsert_rows l (upsert_rows l []) = upsert_rows l [].
Proof.
  induction n as [|n IH]; intros l Hlen.
  - destruct l; [done|]. cbn in Hlen. lia.
  - destruct l as [|r l]; [done|].
    change (upsert_rows (r :: l) []) with (upsert_rows l [r]).
    rewrite (upsert_rows_cons l r []).
    rewrite (upsert_rows_cons (r :: l)), merge_key_key.
    unfold other_keys at 1. rewrite filter_cons_False by (intros Hn; by apply Hn).
    fold (other_keys (key_of r) l).
    rewrite IH by (pose proof (other_keys_length (key_of r) l); cbn in Hlen; lia).
    f_equal.
    unfold merge_key at 1. cbn [foldl]. rewrite decide_True by done.
    fold (merge_key (key_of r) l (r ∪ merge_key (key_of r) l r)).
    rewrite (merge_key_union _ l (r ∪ _)), (merge_key_union _ l r).
    set (U := merge_key (key_of r) l ∅).
    rewrite (assoc_L (∪) U r (U ∪ r)). apply (idemp_L (∪)).
Qed.

(** Submitting the same rows a second time changes nothing. *)
Lemma upsert_rows_idemp t : forall l,
  upsert_rows l (upsert_rows l t) = upsert_rows l t.
Proof.
  induction t as [|s t IH]; intros l.
  - by apply (upsert_rows_nil_idemp (length l)).
  - rewrite (upsert_rows_cons l s t).
    rewrite upsert_rows_cons, merge_key_key, merge_key_idemp, IH. done.
Qed.

End Upsert.

Section SpecBackend.

Implicit Types (s : Store) (tb : Table).

Lemma with_table_same s name tb tb' :
  tables s !! name = Some tb -> tb' = tb -> with_table s name tb' = s.
Proof.
  intros Hl ->. destruct s as [ts ar]. unfold with_table. cbn in *.
  by rewrite insert_id.
Qed.

Lemma with_table_twice s name tb tb' :
  with_table (with_table s name tb) name tb' = with_table s name tb'.
Proof. unfold with_table. cbn. by rewrite insert_insert_eq. Qed.

Lemma with_table_lookup s name tb :
  tables (with_table s name tb) !! name = Some tb.
Proof. apply lookup_insert_eq. Qed.

Lemma Table_eq tb tb' :
  columns tb = columns tb' -> stored tb = stored tb' -> tb = tb'.
Proof. destruct tb, tb'. cbn. by intros -> ->. Qed.

Lemma spec_add_columns name cols : forall s l tb,
  tables s !! name = Some tb ->
  exists l',
    add_columns spec_backend name cols (Build_World s l)
    = (Ok tt,
       Build_World
         (with_table s name
            {| columns := list_to_set cols ∪ columns tb;
               stored := stored tb |}) l').
Proof.
  induction cols as [|c cols IH]; intros s l tb Hl.
  - exists l. cbn. unfold ret. f_equal. f_equal. symmetry.
    apply (with_table_same _ _ tb); [done|].
    apply Table_eq; cbn; [|done]. set_solver.
  - cbn [add_columns]. unfold bind at 1, call at 1. cbn.
    unfold store_add_text_column. rewrite Hl.
    fold (with_table s name
            {| columns := {[c]} ∪ columns tb; stored := stored tb |}).
    edestruct (IH (with_table s name
                     {| columns := {[c]} ∪ columns tb;
                        stored := stored tb |}))
      as [l' ->]; [apply with_table_lookup|].
    exists l'. rewrite with_table_twice. cbn.
    do 3 f_equal. apply Table_eq; cbn; [|done]. set_solver.
Qed.

Lemma spec_ensure_columns name headers s l tb :
  tables s !! name = Some tb ->
  exists l',
    ensure_columns spec_backend name headers (Build_World s l)
    = (Ok tt,
       Build_World
         (with_table s name
            {| columns := list_to_set (new_columns (columns tb) headers)
                          ∪ columns tb;
               stored := stored tb |}) l').
Proof.
  intros Hl. unfold ensure_columns. unfold bind at 1, call at 1. cbn.
  unfold store_get_column_names. rewrite Hl.
  unfold existing_columns. rewrite list_to_set_elements_L.
  destruct (new_columns (columns tb) headers) as [|c cols] eqn:Hnew.
  - eexists. unfold ret. f_equal. f_equal. symmetry.
    apply (with_table_same _ _ tb); [done|].
    apply Table_eq; cbn; [|done]. set_solver.
  - unfold bind at 1, emit at 1. cbn [ext log]. unfold bind at 1.
    edestruct (spec_add_columns name (c :: cols) s) as [l' ->]; [done|].
    unfold bind, call, emit. cbn. eexists. reflexivity.
Qed.

Lemma spec_ensure_columns_unknown name headers s l :
  tables s !! name = None ->
  ensure_columns spec_backend name headers (Build_World s l)
  = (Raise (Raised "SchemaQueryError"),
     Build_World s (l ++ [EGetColumnNames name])).
Proof.
  intros Hl. unfold ensure_columns. unfold bind at 1, call at 1. cbn.
  unfold store_get_column_names. by rewrite Hl.
Qed.

Lemma upsert_rows_app l1 l2 t :
  upsert_rows (l1 ++ l2) t = upsert_rows l2 (upsert_rows l1 t).
Proof. apply foldl_app. Qed.

Lemma spec_upsert_batches name bs : forall s l tb errors,
  tables s !! name = Some tb ->
  exists l',
    upsert_batches spec_backend name bs errors (Build_World s l)
    = (Ok errors,
       Build_World
         (with_table s name
            {| columns := columns tb;
               stored := upsert_rows (concat bs) (stored tb) |}) l').
Proof.
  induction bs as [|batch bs IH]; intros s l tb errors Hl.
  - exists l. cbn. unfold ret. f_equal. f_equal. symmetry.
    apply (with_table_same _ _ tb); [done|]. by apply Table_eq.
  - cbn [upsert_batches]. unfold bind at 1, call at 1.
    cbn [upsert spec_backend ext log].
    unfold store_upsert. rewrite Hl.
    fold (with_table s name
            {| columns := columns tb;
               stored := upsert_rows batch (stored tb) |}).
    edestruct (IH (with_table s name
                     {| columns := columns tb;
                        stored := upsert_rows batch (stored tb) |}))
      as [l' ->]; [apply with_table_lookup|].
    exists l'. rewrite with_table_twice. cbn [columns stored].
    change (concat (batch :: bs)) with (batch ++ concat bs).
    by rewrite upsert_rows_app.
Qed.

(** What one file does to the store. *)
Lemma spec_ingest_file data_dir fname name ctx s l :
  exists l',
    ingest_file spec_backend data_dir fname name ctx (Build_World s l) =
      match data_dir !! fname with
      | None => (Ok 0%nat, Build_World s l')
      | Some f =>
          match tables s !! name with
          | None => (Raise (Raised "SchemaQueryError"), Build_World s l')
          | Some tb =>
              (Ok (length (project_all (fieldnames f) ctx (records f))),
               Build_World (with_table s name (ingested_table tb f ctx)) l')
          end
      end.
Proof.
  destruct (data_dir !! fname) as [f|] eqn:Hf.
  2:{ eexists. by rewrite ingest_file_missing. }
  destruct (tables s !! name) as [tb|] eqn:Hl.
  2:{ eexists. apply ingest_file_reconcile_raises with f; [done|].
      by apply spec_ensure_columns_unknown. }
  destruct (spec_ensure_columns name (fieldnames f) s l tb Hl) as [l1 Hrec].
  rewrite (ingest_file_after_reconcile _ _ _ _ _ _ _ _ Hf Hrec). cbv zeta.
  edestruct (spec_upsert_batches name
               (batches (project_all (fieldnames f) ctx (records f))))
    as [l2 ->]; [apply with_table_lookup|].
  eexists. rewrite with_table_twice, batches_concat. cbn. reflexivity.
Qed.

Lemma new_columns_ingested tb f ctx :
  new_columns (columns (ingested_table tb f ctx)) (fieldnames f) = [].
Proof.
  destruct (new_columns _ _) as [|h hs] eqn:E; [done|]. exfalso.
  assert (Hh : h ∈ new_columns (columns (ingested_table tb f ctx))
                 (fieldnames f)) by (rewrite E; left).
  apply new_columns_spec in Hh as (Hin & Hnew & Hkey). apply Hnew. cbn.
  destruct (decide (h ∈ columns tb)) as [?|Hold];
    [by apply elem_of_union_r|].
  apply elem_of_union_l, elem_of_list_to_set, new_columns_spec. done.
Qed.

Lemma ingested_table_idemp tb f ctx :
  ingested_table (ingested_table tb f ctx) f ctx = ingested_table tb f ctx.
Proof.
  apply Table_eq.
  - unfold ingested_table at 1. cbn [columns].
    rewrite new_columns_ingested. set_solver.
  - cbn. apply upsert_rows_idemp.
Qed.

Lemma ingest_keeps_keys_unique data_dir fname name ctx s l r w' :
  keys_unique s ->
  ingest_file spec_backend data_dir fname name ctx (Build_World s l)
    = (r, w') ->
  keys_unique (ext w').
Proof.
  intros Huniq Hrun.
  destruct (spec_ingest_file data_dir fname name ctx s l) as [l' Hspec].
  rewrite Hspec in Hrun.
  destruct (data_dir !! fname) as [f|]; [|by injection Hrun as <- <-].
  destruct (tables s !! name) as [tb|] eqn:Hl; [|by injection Hrun as <- <-].
  injection Hrun as <- <-. cbn.
  intros name' tb' Hl'. unfold with_table in Hl'. cbn in Hl'.
  destruct (decide (name = name')) as [->|Hne].
  - rewrite lookup_insert_eq in Hl'. injection Hl' as <-. cbn.
    apply upsert_rows_NoDup. by apply (Huniq name').
  - rewrite lookup_insert_ne in Hl' by done. by apply (Huniq name').
Qed.

(** Every conflict key identifies at most one row in every state the
    script can reach. *)
Lemma reachable_keys_unique s : reachable s -> keys_unique s.
Proof.
  induction 1 as [s Hempty|s l data_dir fname name ctx r w' _ IH Hrun].
  - intros name tb Hl. rewrite (Hempty name tb Hl). apply NoDup_nil_2.
  - by eapply ingest_keeps_keys_unique.
Qed.

End SpecBackend.

(** C1: on the storage model, ingesting a file a second time for the same
    period leaves the store, hence every table's rows and their number, as
    the first ingestion left it, and returns the same count; in every
    reachable state each key (cu_number, year, quarter) identifies at most
    one row of a table, so the second pass overwrites and never inserts. *)
Theorem ingest_twice_same s l data_dir fname table ctx r1 w1 r2 w2 :
  reachable s ->
  ingest_file spec_backend data_dir fname table ctx (Build_World s l)
    = (r1, w1) ->
  ingest_file spec_backend data_dir fname table ctx w1 = (r2, w2) ->
  ext w2 = ext w1 /\ r2 = r1 /\ keys_unique (ext w1) /\ reachable (ext w1).
Proof.
  intros Hreach Hrun1 Hrun2.
  assert (Hreach1 : reachable (ext w1)) by (by eapply reachable_ingest).
  split_and!; [| |by apply reachable_keys_unique|done].
  all: destruct (spec_ingest_file data_dir fname table ctx s l) as [l1 Hs1];
    rewrite Hs1 in Hrun1;
    destruct w1 as [s1 lg1];
    destruct (spec_ingest_file data_dir fname table ctx s1 lg1) as [l2 Hs2];
    rewrite Hs2 in Hrun2;
    destruct (data_dir !! fname) as [f|];
    [|injection Hrun1 as <- <- <-; by injection Hrun2 as <- <-];
    destruct (tables s !! table) as [tb|] eqn:Hl.
  all: injection Hrun1 as <- <- <-.
  all: try rewrite Hl in Hrun2.
  all: try rewrite with_table_lookup in Hrun2.
  all: injection Hrun2 as <- <-; cbn [ext]; try done.
  by rewrite with_table_twice, ingested_table_idemp.
Qed.

Lemma ingest_twice_same_witness :
  let run1 := ingest_file spec_backend assets_dir "FOICU.txt" "bronze_foicu"
                ctx_2025Q3 (Build_World empty_foicu []) in
  let run2 := ingest_file spec_backend assets_dir "FOICU.txt" "bronze_foicu"
                ctx_2025Q3 run1.2 in
  reachable empty_foicu
  /\ ext run2.2 = ext run1.2 /\ run2.1 = run1.1
  /\ (length <$> (stored <$> tables (ext run2.2) !! "bronze_foicu"))
     = Some 1%nat.
Proof.
  intros run1 run2.
  assert (Hreach : reachable empty_foicu).
  { apply reachable_init. intros name tb Hl.
    unfold empty_foicu in Hl. cbn in Hl.
    apply lookup_singleton_Some in Hl as [_ <-]. done. }
  destruct (ingest_twice_same empty_foicu [] assets_dir "FOICU.txt"
              "bronze_foicu" ctx_2025Q3 run1.1 run1.2 run2.1 run2.2)
    as (Hext & Hres & _ & _);
    [exact Hreach | apply surjective_pairing | apply surjective_pairing |].
  split_and!; [exact Hreach | exact Hext | exact Hres |].
  vm_compute. reflexivity.
Defined.
(* ===================================================================== *)
(** ** Further properties: quarter utilities *)
(* ===================================================================== *)

Lemma label_roundtrips_all :
  forallb (fun y => forallb (label_roundtrips y) [1; 2; 3; 4])
    (seqZ 1000 9000) = true.
Proof. vm_compute. reflexivity. Qed.

Lemma label_roundtrip y q :
  1000 <= y <= 9999 -> 1 <= q <= 4 ->
  parse_quarter (quarter_label y q) = Ok (y, q).
Proof.
  intros Hy Hq.
  pose proof label_roundtrips_all as Hall.
  rewrite forallb_forall in Hall.
  specialize (Hall y). rewrite forallb_forall in Hall.
  assert (Hin : In y (seqZ 1000 9000)).
  { apply list_elem_of_In, elem_of_seqZ. lia. }
  specialize (Hall Hin q).
  assert (Hq' : In q [1; 2; 3; 4]).
  { assert (q = 1 \/ q = 2 \/ q = 3 \/ q = 4) as [->|[->|[->| ->]]] by lia;
      cbn; tauto. }
  specialize (Hall Hq'). unfold label_roundtrips in Hall.
  destruct (parse_quarter (quarter_label y q)) as [[y' q']|]; [|done].
  apply andb_prop in Hall as [->%Z.eqb_eq ->%Z.eqb_eq]. done.
Qed.

(** X1: the label of a quarter with a four-digit year parses back to that
    quarter. *)
Theorem parse_quarter_of_label y q :
  1000 <= y <= 9999 -> 1 <= q <= 4 ->
  parse_quarter (quarter_label y q) = Ok (y, q).
Proof. apply label_roundtrip. Qed.

Lemma parse_quarter_of_label_witness :
  parse_quarter (quarter_label 2025 3) = Ok (2025, 3).
Proof. apply parse_quarter_of_label; lia. Defined.

(** X2: [parse_quarter] either exits with the format message, or returns a
    year between 0 and 9999 and a quarter between 1 and 4, and then only
    for a string of seven characters, or of eight ending in a newline. *)
Theorem parse_quarter_outcome s :
  parse_quarter s = Raise (SystemExit (invalid_quarter_msg s))
  \/ exists y q core,
       parse_quarter s = Ok (y, q)
       /\ 0 <= y <= 9999 /\ 1 <= q <= 4
       /\ String.length core = 7%nat
       /\ (s = core \/ s = core +:+ PyStr.newline).
Proof.
  unfold parse_quarter.
  do 7 (destruct s as [|? s]; [by left|]).
  match goal with |- context [if ?c then _ else _] => destruct c eqn:Hc end;
    [|by left].
  right.
  repeat match type of Hc with
         | (_ && _)%bool = true => apply andb_prop in Hc as [Hc ?]
         end.
  unfold PyStr.is_digit, PyStr.digit_val in *.
  repeat match goal with
         | H : bool_decide _ = true |- _ => apply bool_decide_eq_true in H
         | H : (_ && _)%bool = true |- _ => apply andb_prop in H as [? ?]
         | H : (_ || _)%bool = true |- _ => apply orb_prop in H
         | H : (_ <=? _)%nat = true |- _ => apply Nat.leb_le in H
         end.
  eexists _, _,
    (String a (String a0 (String a1 (String a2 (String a3 (String a4
       (String a5 EmptyString))))))).
  split; [reflexivity|]. split; [lia|]. split; [lia|]. split; [done|].
  match goal with H : _ \/ _ |- _ => destruct H as [H|H] end;
    apply bool_decide_eq_true in H; subst s; [by left|by right].
Qed.

(** X3: a range whose start comes after its end is refused with the range
    message, and nothing is returned. *)
Theorem quarter_range_backwards start end_ sy sq ey eq :
  parse_quarter start = Ok (sy, sq) ->
  parse_quarter end_ = Ok (ey, eq) ->
  quarter_index ey eq < quarter_index sy sq ->
  quarter_range start end_
  = Raise (SystemExit ("Invalid range: " +:+ start +:+ " to " +:+ end_)).
Proof.
  intros Hs He Hlt. unfold quarter_range. rewrite Hs, He.
  apply parse_quarter_range in Hs as [_ Hsq], He as [_ Heq].
  rewrite quarter_loop_step.
  destruct (tuple_le sy sq ey eq) eqn:Hle; [|done].
  apply tuple_le_index in Hle; [lia|done|done].
Qed.

Lemma quarter_range_backwards_witness :
  quarter_range "2025-Q1" "2024-Q3"
  = Raise (SystemExit "Invalid range: 2025-Q1 to 2024-Q3").
Proof.
  apply (quarter_range_backwards "2025-Q1" "2024-Q3" 2025 1 2024 3);
    [reflexivity | reflexivity | vm_compute; reflexivity].
Defined.

Lemma quarter_at_bounds i lo hi :
  4 * lo <= i < 4 * (hi + 1) ->
  lo <= (quarter_at i).1 <= hi /\ 1 <= (quarter_at i).2 <= 4.
Proof.
  intros Hi. unfold quarter_at. cbn.
  pose proof (Z.mod_pos_bound i 4 ltac:(lia)).
  pose proof (Z.div_mod i 4 ltac:(lia)). lia.
Qed.

(** X4: when the start has a four-digit year, every identifier of the
    expanded range parses again, to the quarters of the range in order: the
    list can be handed to [import_quarter] one by one. *)
Theorem quarter_range_reparses start end_ sy sq ey eq l :
  parse_quarter start = Ok (sy, sq) ->
  parse_quarter end_ = Ok (ey, eq) ->
  1000 <= sy ->
  quarter_range start end_ = Ok l ->
  parse_quarter <$> l = Ok <$> quarters_between sy sq ey eq.
Proof.
  intros Hs He Hy Hrun. unfold quarter_range in Hrun. rewrite Hs, He in Hrun.
  pose proof (parse_quarter_range _ _ _ Hs) as [_ Hsq].
  pose proof (parse_quarter_range _ _ _ He) as [Hey Heq].
  assert (Hle : quarter_index sy sq <= quarter_index ey eq).
  { destruct (decide (quarter_index sy sq <= quarter_index ey eq)); [done|].
    rewrite quarter_loop_step in Hrun.
    destruct (tuple_le sy sq ey eq) eqn:Hle; [|done].
    by apply tuple_le_index in Hle. }
  rewrite (quarter_loop_enumerates ey eq
             (Z.to_nat (quarter_index ey eq - quarter_index sy sq + 1)))
    in Hrun by (try done; lia).
  rewrite Z2Nat.id in Hrun by lia.
  assert (Hl : l = (fun p => quarter_label p.1 p.2)
                   <$> quarters_between sy sq ey eq).
  { unfold quarters_between.
    match type of Hrun with
    | match ?t with _ => _ end = _ => destruct t eqn:E
    end; [discriminate|]. by injection Hrun as <-. }
  rewrite Hl, <- list_fmap_compose.
  apply list_fmap_ext. intros _ [y q] Hin%list_elem_of_lookup_2. cbn.
  unfold quarters_between in Hin.
  apply list_elem_of_fmap in Hin as (i & Hyq & Hi%elem_of_seqZ).
  unfold quarter_index in Hi.
  destruct (quarter_at_bounds i sy ey) as [Hb1 Hb2]; [lia|].
  rewrite <- Hyq in Hb1, Hb2. cbn in Hb1, Hb2.
  apply label_roundtrip; lia.
Qed.

Lemma quarter_range_reparses_witness :
  parse_quarter <$> ["2024-Q3"; "2024-Q4"; "2025-Q1"]
  = [Ok (2024, 3); Ok (2024, 4); Ok (2025, 1)].
Proof.
  rewrite (quarter_range_reparses "2024-Q3" "2025-Q1" 2024 3 2025 1);
    [vm_compute; reflexivity | reflexivity | reflexivity | lia
    | vm_compute; reflexivity].
Defined.

(** X5: for a quarter between 1 and 4 the archive URL exists and names the
    last month of the quarter with two digits; for any other quarter the
    lookup in [QUARTER_MONTH] raises [KeyError]. *)
Theorem quarter_url_month year quarter :
  quarter_url year quarter =
    if bool_decide (1 <= quarter <= 4)
    then Ok (NCUA_BASE_URL +:+ "/call-report-data-" +:+ PyStr.of_int year
             +:+ "-" +:+ two_digits (3 * quarter) +:+ ".zip")
    else Raise (Raised "KeyError").
Proof.
  unfold quarter_url, QUARTER_MONTH. case_bool_decide as Hq.
  - assert (quarter = 1 \/ quarter = 2 \/ quarter = 3 \/ quarter = 4)
      as [->|[->|[->| ->]]] by lia; reflexivity.
  - repeat case_decide; try lia. done.
Qed.
(* ===================================================================== *)
(** ** Further properties: archive layout, batches, projection *)
(* ===================================================================== *)

(** X6: [resolve_data_dir] returns a directory that holds [FOICU.txt], the
    top of the archive when it does and otherwise one of its
    sub-directories; it exits exactly when neither the top nor any
    sub-directory holds the file. *)
Theorem resolve_data_dir_finds x :
  match resolve_data_dir x with
  | Ok d =>
      is_Some (d !! "FOICU.txt")
      /\ (is_Some (top x !! "FOICU.txt") -> d = top x)
      /\ (~ is_Some (top x !! "FOICU.txt") -> d ∈ subdirs x)
  | Raise e =>
      e = SystemExit ("FOICU.txt not found in extracted data at "
                      +:+ tmp x +:+ "/data")
      /\ ~ is_Some (top x !! "FOICU.txt")
      /\ Forall (fun d => ~ is_Some (d !! "FOICU.txt")) (subdirs x)
  end.
Proof.
  unfold resolve_data_dir.
  destruct (decide (is_Some (top x !! "FOICU.txt"))) as [Htop|Htop].
  - split_and!; done.
  - destruct (List.find _ (subdirs x)) as [d|] eqn:Hfind.
    + apply find_some in Hfind as [Hin Hd%bool_decide_eq_true].
      split_and!; [done|done|]. intros _. by apply list_elem_of_In.
    + split_and!; [done|done|]. apply Forall_forall. intros d Hin%list_elem_of_In.
      pose proof (find_none _ _ Hfind d Hin) as Hd. cbn in Hd.
      by apply bool_decide_eq_false in Hd.
Qed.

Lemma range_step_lookup stop step i k :
  range_step stop step !! i = Some k ->
  k = (i * step)%nat /\ (i < (stop + step - 1) / step)%nat.
Proof.
  unfold range_step. rewrite list_lookup_fmap.
  destruct (seq 0 _ !! i) as [j|] eqn:Hj; [|done].
  apply lookup_seq in Hj as [-> Hlt]. cbn. intros [= <-]. done.
Qed.

(** X7: the batches of a file are non-empty slices of at most [BATCH_SIZE]
    rows, all but the last of exactly [BATCH_SIZE]; there are
    ceil(len / BATCH_SIZE) of them, none for a file without rows. *)
Theorem batches_sizes rows :
  length (batches rows) = ((length rows + 199) / 200)%nat
  /\ (forall (i : nat) (batch : list Row),
        batches rows !! i = Some batch ->
        (1 <= length batch <= 200)%nat
        /\ ((S i < length (batches rows))%nat -> length batch = 200%nat)).
Proof.
  assert (Hlen : length (batches rows) = ((length rows + 199) / 200)%nat).
  { unfold batches, range_step, BATCH_SIZE.
    rewrite !length_fmap, length_seq. f_equal. lia. }
  split; [done|]. intros i batch Hb.
  rewrite Hlen. unfold batches in Hb. rewrite list_lookup_fmap in Hb.
  destruct (range_step _ _ !! i) as [k|] eqn:Hk; [|done].
  apply range_step_lookup in Hk as [-> Hi]. injection Hb as <-.
  unfold BATCH_SIZE in *. rewrite length_take, length_drop.
  replace (length rows + 200 - 1)%nat with (length rows + 199)%nat in Hi by lia.
  pose proof (Nat.div_mod_eq (length rows + 199) 200) as Hd.
  pose proof (Nat.mod_upper_bound (length rows + 199) 200 ltac:(lia)) as Hm.
  split; [lia|]. intros Hnext. lia.
Qed.

Lemma base_row_reserved cu record ctx :
  let row := base_row cu record ctx in
  row !! "cu_number" = Some (VStr cu)
  /\ row !! "cycle_date"
     = Some (str_or_none (first_of record "CYCLE_DATE" "Cycle_Date"))
  /\ row !! "year" = Some (VInt (year ctx))
  /\ row !! "quarter" = Some (VInt (quarter ctx))
  /\ row !! "period" = Some (VStr (period ctx))
  /\ row !! "source_url" = Some (VStr (source_url ctx))
  /\ row !! "id" = None /\ row !! "imported_at" = None.
Proof. split_and!; reflexivity. Qed.

Lemma spread_all_reserved record headers row h :
  h ∈ KEY_COLUMNS -> foldl (spread record) row headers !! h = row !! h.
Proof.
  intros Hk. rewrite spread_all_lookup, decide_False; [done|].
  intros [_ Hn]. done.
Qed.

Lemma in_KEY_COLUMNS h :
  h ∈ ["id"; "cu_number"; "cycle_date"; "year"; "quarter"; "period";
       "source_url"; "imported_at"] -> h ∈ KEY_COLUMNS.
Proof.
  unfold KEY_COLUMNS. rewrite !elem_of_cons, elem_of_nil,
    !elem_of_union, !elem_of_singleton. tauto.
Qed.

(** Trimming a trimmed string changes nothing. *)
Lemma lstrip_head a s r : PyStr.lstrip s = String a r -> PyStr.is_space a = false.
Proof.
  induction s as [|b s IH]; cbn; [done|].
  destruct (PyStr.is_space b) eqn:Hb; [done|]. by intros [= <- _].
Qed.

Lemma rstrip_head a s :
  PyStr.is_space a = false ->
  exists r, PyStr.rstrip (String a s) = String a r.
Proof.
  intros Ha. cbn. destruct (PyStr.rstrip s); [rewrite Ha|]; eauto.
Qed.

Lemma rstrip_idemp s : PyStr.rstrip (PyStr.rstrip s) = PyStr.rstrip s.
Proof.
  induction s as [|a s IH]; cbn; [done|].
  destruct (PyStr.rstrip s) as [|b r] eqn:Hr.
  - destruct (PyStr.is_space a) eqn:Ha; cbn; [done|]. by rewrite Ha.
  - cbn [PyStr.rstrip]. cbn [PyStr.rstrip] in IH.
    destruct (PyStr.rstrip r) eqn:Hrr.
    + destruct (PyStr.is_space b); [done|]. by rewrite IH.
    + by rewrite IH.
Qed.

Lemma strip_idemp s : PyStr.strip (PyStr.strip s) = PyStr.strip s.
Proof.
  unfold PyStr.strip.
  destruct (PyStr.lstrip s) as [|a r] eqn:Hl; [done|].
  pose proof (lstrip_head _ _ _ Hl) as Ha.
  destruct (rstrip_head a r Ha) as [r' Hr]. rewrite Hr.
  cbn [PyStr.lstrip]. rewrite Ha, <- Hr. apply rstrip_idemp.
Qed.

(** X8: a projected row always carries the trimmed, non-empty institution
    identifier and the period context under the reserved names, and never
    the storage-owned [id] and [imported_at]; file columns named like
    reserved columns do not overwrite them, so the conflict key of the row
    is fully defined by the identifier and the period. *)
Theorem project_reserved_columns headers ctx record row :
  project headers ctx record = Some row ->
  exists cu,
    cu <> EmptyString /\ PyStr.strip cu = cu
    /\ row !! "cu_number" = Some (VStr cu)
    /\ row !! "year" = Some (VInt (year ctx))
    /\ row !! "quarter" = Some (VInt (quarter ctx))
    /\ row !! "period" = Some (VStr (period ctx))
    /\ row !! "source_url" = Some (VStr (source_url ctx))
    /\ row !! "id" = None /\ row !! "imported_at" = None
    /\ key_of row
       = (Some (VStr cu), Some (VInt (year ctx)), Some (VInt (quarter ctx))).
Proof.
  unfold project. case_bool_decide as Hcu; [discriminate|]. intros [= <-].
  exists (first_of record "CU_NUMBER" "CU_Number").
  destruct (base_row_reserved (first_of record "CU_NUMBER" "CU_Number")
              record ctx) as (H1 & _ & H3 & H4 & H5 & H6 & H7 & H8).
  unfold key_of.
  rewrite !spread_all_reserved
    by (apply in_KEY_COLUMNS; rewrite !elem_of_cons; tauto).
  rewrite H1, H3, H4, H5, H6, H7, H8.
  split_and!; try done. unfold first_of. apply strip_idemp.
Qed.

Lemma project_reserved_columns_witness :
  project ["CU_NUMBER"; "year"; "id"; "CYCLE_DATE"] ctx_2025Q3
    shadowing_record = Some shadowing_row
  /\ shadowing_row !! "year" = Some (VInt 2025)
  /\ shadowing_row !! "id" = None.
Proof.
  assert (Hp : project ["CU_NUMBER"; "year"; "id"; "CYCLE_DATE"] ctx_2025Q3
                 shadowing_record = Some shadowing_row) by reflexivity.
  destruct (project_reserved_columns _ _ _ _ Hp)
    as (cu & _ & _ & _ & Hy & _ & _ & _ & Hid & _).
  split_and!; [exact Hp|exact Hy|exact Hid].
Defined.

(** X9: the reporting-cycle date of a projected row is the trimmed text of
    the first non-empty header variant, or null when that text is blank. *)
Theorem project_cycle_date headers ctx record row :
  project headers ctx record = Some row ->
  let d := first_of record "CYCLE_DATE" "Cycle_Date" in
  (d = EmptyString -> row !! "cycle_date" = Some VNone)
  /\ (d <> EmptyString -> row !! "cycle_date" = Some (VStr d))
  /\ PyStr.strip d = d.
Proof.
  unfold project. case_bool_decide as Hcu; [discriminate|]. intros [= <-].
  cbv zeta.
  rewrite spread_all_reserved
    by (apply in_KEY_COLUMNS; rewrite !elem_of_cons; tauto).
  destruct (base_row_reserved (first_of record "CU_NUMBER" "CU_Number")
              record ctx) as (_ & H2 & _).
  rewrite H2. set (d := first_of record "CYCLE_DATE" "Cycle_Date").
  unfold str_or_none. split_and!.
  - intros ->. done.
  - intros Hd. by rewrite bool_decide_eq_false_2.
  - apply strip_idemp.
Qed.

Lemma project_cycle_date_witness :
  project ["CU_NUMBER"; "year"; "id"; "CYCLE_DATE"] ctx_2025Q3
    shadowing_record = Some shadowing_row
  /\ shadowing_row !! "cycle_date" = Some VNone.
Proof.
  assert (Hp : project ["CU_NUMBER"; "year"; "id"; "CYCLE_DATE"] ctx_2025Q3
                 shadowing_record = Some shadowing_row) by reflexivity.
  destruct (project_cycle_date _ _ _ _ Hp) as (Hblank & _ & _).
  split; [exact Hp|]. apply Hblank. vm_compute. reflexivity.
Defined.

(** X10: the rows of a file are its records in order, less the dropped
    ones: their number is the number of records that are not dropped. *)
Theorem project_all_count headers ctx recs :
  length (project_all headers ctx recs)
  = length (filter (fun r => dropped r = false) recs)
  /\ (length (project_all headers ctx recs) <= length recs)%nat.
Proof.
  assert (Hcount : length (project_all headers ctx recs)
                   = length (filter (fun r => dropped r = false) recs)).
  { unfold project_all.
    induction recs as [|r recs IH]; [done|]. cbn [omap list_omap].
    pose proof (project_None headers ctx r) as HN. fold (dropped r) in HN.
    destruct (project headers ctx r) as [row|].
    - rewrite filter_cons_True.
      + cbn. by rewrite IH.
      + destruct (dropped r); [|done]. destruct HN as [_ HN]. by specialize (HN eq_refl).
    - rewrite filter_cons_False; [done|].
      destruct HN as [HN _]. rewrite (HN eq_refl). done. }
  split; [done|]. rewrite Hcount. apply length_filter.
Qed.

(** X11: once the missing columns are part of the table's columns, the same
    header has nothing missing any more; and a missing column is never an
    existing or a reserved one. *)
Theorem new_columns_converges existing existing' headers :
  existing ∪ list_to_set (new_columns existing headers) ⊆ existing' ->
  new_columns existing' headers = []
  /\ Forall (fun h => (h ∉ existing) /\ (h ∉ KEY_COLUMNS))
       (new_columns existing headers).
Proof.
  intros Hsub. split.
  - destruct (new_columns existing' headers) as [|h hs] eqn:E; [done|].
    exfalso.
    assert (Hh : h ∈ new_columns existing' headers) by (rewrite E; left).
    apply new_columns_spec in Hh as (Hin & Hnew & Hkey). apply Hnew, Hsub.
    destruct (decide (h ∈ existing)); [by apply elem_of_union_l|].
    apply elem_of_union_r, elem_of_list_to_set, new_columns_spec. done.
  - apply Forall_forall. intros h (_ & ? & ?)%new_columns_spec. done.
Qed.

Lemma new_columns_converges_witness :
  new_columns (KEY_COLUMNS ∪ {[ "CU_NUMBER"; "CYCLE_DATE"; "ASSETS" ]})
    ["CU_NUMBER"; "CYCLE_DATE"; "ASSETS"] = [].
Proof.
  apply (new_columns_converges KEY_COLUMNS).
  apply (bool_decide_eq_true_1 _). vm_compute. reflexivity.
Defined.
(* ===================================================================== *)
(** ** Further properties: exceptions, totals, cleanup *)
(* ===================================================================== *)

(** X12: an exception raised by the write path is not caught by the batch
    loop: the loop ends with it at the failing batch, and the batches after
    it are never submitted. *)
Theorem upsert_exception_stops_loop {S} (b : Backend S) table before batch
  after e s2 : forall errors w n w1,
  upsert_batches b table before errors w = (Ok n, w1) ->
  upsert b table batch (ext w1) = (Raise e, s2) ->
  upsert_batches b table (before ++ batch :: after) errors w
  = (Raise e, Build_World s2 (log w1 ++ [EUpsert table batch])).
Proof.
  induction before as [|b0 before IH]; intros errors w n w1 Hpre Hraise.
  - injection Hpre as <- <-. cbn [app upsert_batches].
    unfold bind at 1, call at 1. by rewrite Hraise.
  - cbn [app upsert_batches] in *.
    unfold bind at 1, call at 1. unfold bind at 1, call at 1 in Hpre.
    destruct (upsert b table b0 (ext w)) as [[[cause|]|e'] s1];
      [| |discriminate].
    + unfold bind at 1, emit at 1. unfold bind at 1, emit at 1 in Hpre.
      by eapply IH.
    + by eapply IH.
Qed.

Lemma upsert_exception_stops_loop_witness :
  let run := upsert_batches spec_backend "bronze_unknown"
               [[assets_row]; [assets_row]] 0 (Build_World empty_foicu []) in
  run.1 = Raise (Raised "BatchWriteError")
  /\ length (upserts_of (log run.2)) = 1%nat.
Proof.
  intros run. subst run.
  pose proof (upsert_exception_stops_loop spec_backend "bronze_unknown" []
                [assets_row] [[assets_row]] (Raised "BatchWriteError")
                empty_foicu 0%nat (Build_World empty_foicu []) 0%nat
                (Build_World empty_foicu [])) as H.
  cbn [app] in H.
  rewrite H; [split; reflexivity | reflexivity | reflexivity].
Defined.

(** X13: when the registry refuses one of the missing columns, the
    reconciliation ends with that exception right there: the columns before
    it have been added, the ones after it are not attempted, and the schema
    cache is neither reloaded nor waited for. *)
Theorem rejected_column_stops_reconcile {S} (b : Backend S) table headers
  w data s1 before c after w2 e s3 :
  get_column_names b table (ext w) = (Ok data, s1) ->
  new_columns (existing_columns data) headers = before ++ c :: after ->
  add_columns b table before
    (Build_World s1
       (log w ++ [EGetColumnNames table;
                  EPrint (LAddingColumns (length (before ++ c :: after))
                            table)]))
  = (Ok tt, w2) ->
  add_text_column b table c (ext w2) = (Raise e, s3) ->
  ensure_columns b table headers w
  = (Raise e, Build_World s3 (log w2 ++ [EAddTextColumn table c])).
Proof.
  intros Hget Hnew Hbefore Hraise.
  unfold ensure_columns. unfold bind at 1, call at 1. rewrite Hget, Hnew.
  assert (Hcons : forall (A : Type) (x y : A),
            match before ++ c :: after with [] => x | _ :: _ => y end = y)
    by (intros; by destruct before).
  rewrite Hcons.
  unfold bind at 1, emit at 1. cbn [ext log]. rewrite <- app_assoc.
  cbn [app]. unfold bind at 1.
  assert (Hrun : forall w0 w2',
            add_columns b table before w0 = (Ok tt, w2') ->
            add_text_column b table c (ext w2') = (Raise e, s3) ->
            add_columns b table (before ++ c :: after) w0
            = (Raise e, Build_World s3 (log w2' ++ [EAddTextColumn table c]))).
  { clear. induction before as [|x before IH]; intros w0 w2' Hb Hr.
    - injection Hb as <-. cbn [app add_columns].
      unfold bind at 1, call at 1. by rewrite Hr.
    - cbn [app add_columns] in *.
      unfold bind at 1, call at 1. unfold bind at 1, call at 1 in Hb.
      destruct (add_text_column b table x (ext w0)) as [[[]|e'] s']; [|done].
      by apply IH. }
  by rewrite (Hrun _ _ Hbefore Hraise).
Qed.

Lemma rejected_column_stops_reconcile_witness :
  let run := ensure_columns (faulty_backend assets_rejected) "bronze_foicu"
               (fieldnames assets_file) (Build_World empty_foicu []) in
  run.1 = Raise (Raised "SchemaMutationError")
  /\ registry_calls_of (log run.2)
     = [ EGetColumnNames "bronze_foicu";
         EAddTextColumn "bronze_foicu" "CU_NUMBER";
         EAddTextColumn "bronze_foicu" "CYCLE_DATE";
         EAddTextColumn "bronze_foicu" "ASSETS" ].
Proof.
  intros run. subst run.
  set (b := faulty_backend assets_rejected).
  set (w := Build_World empty_foicu []).
  set (w1 := add_columns b "bronze_foicu" ["CU_NUMBER"; "CYCLE_DATE"]
               (Build_World empty_foicu
                  [EGetColumnNames "bronze_foicu";
                   EPrint (LAddingColumns 3 "bronze_foicu")])).
  rewrite (rejected_column_stops_reconcile b "bronze_foicu"
             (fieldnames assets_file) w (Some (elements KEY_COLUMNS))
             empty_foicu ["CU_NUMBER"; "CYCLE_DATE"] "ASSETS" [] w1.2
             (Raised "SchemaMutationError") (ext w1.2)).
  - split; [reflexivity|]. vm_compute. reflexivity.
  - reflexivity.
  - vm_compute. reflexivity.
  - rewrite (surjective_pairing w1). f_equal.
  - reflexivity.
Defined.

Lemma ingest_file_count {S} (b : Backend S) data_dir fname table ctx w n w' :
  ingest_file b data_dir fname table ctx w = (Ok n, w') ->
  n = file_rows data_dir ctx fname.
Proof.
  intros Hrun. unfold file_rows.
  destruct (data_dir !! fname) as [f|] eqn:Hf.
  - destruct (ensure_columns b table (fieldnames f) w) as [[[]|e] w1] eqn:Hrec.
    + rewrite (ingest_file_after_reconcile _ _ _ _ _ _ _ _ Hf Hrec) in Hrun.
      cbv zeta in Hrun.
      destruct (upsert_batches _ _ _ _ _) as [[errors|e] w2]; [|discriminate].
      by injection Hrun as <- _.
    + rewrite (ingest_file_reconcile_raises _ _ _ _ _ _ _ _ _ Hf Hrec) in Hrun.
      discriminate.
  - rewrite (ingest_file_missing _ _ _ _ _ _ Hf) in Hrun.
    by injection Hrun as <- _.
Qed.

(** X14: the row count of a period is decided by the archive alone: when
    the files of a period are all ingested, the total is the starting count
    plus, for every source file in turn, the number of its records that are
    not dropped, a missing file counting for nothing. *)
Theorem ingest_files_total {S} (b : Backend S) data_dir ctx files :
  forall total w n w',
  ingest_files b data_dir ctx files total w = (Ok n, w') ->
  n = (total + sum_list (file_rows data_dir ctx <$> files.*1))%nat.
Proof.
  induction files as [|[fname table] files IH]; intros total w n w' Hrun.
  - injection Hrun as <- _. cbn. lia.
  - cbn [ingest_files] in Hrun. unfold bind at 1 in Hrun.
    destruct (ingest_file b data_dir fname table ctx w) as [[k|e] w1] eqn:Hfile;
      [|discriminate].
    apply ingest_file_count in Hfile as ->.
    apply IH in Hrun as ->. cbn. lia.
Qed.

Lemma ingest_files_total_witness :
  let run := ingest_files spec_backend (top two_file_archive) ctx_2025Q3
               SOURCE_FILES 0 (Build_World two_table_store []) in
  run.1 = Ok 2%nat
  /\ 2%nat = (0 + sum_list (file_rows (top two_file_archive) ctx_2025Q3
                             <$> SOURCE_FILES.*1))%nat.
Proof.
  intros run.
  assert (Hres : run.1 = Ok 2%nat) by (vm_compute; reflexivity).
  split; [exact Hres|].
  apply (ingest_files_total spec_backend (top two_file_archive) ctx_2025Q3
           SOURCE_FILES 0%nat (Build_World two_table_store []) 2%nat run.2).
  rewrite <- Hres. apply surjective_pairing.
Defined.

Section Removals.

Context {S : Type} (b : Backend S).

Lemma removals_of_app l1 l2 :
  removals_of (l1 ++ l2) = removals_of l1 ++ removals_of l2.
Proof. apply omap_app. Qed.

Lemma storage_calls_of_app l1 l2 :
  storage_calls_of (l1 ++ l2) = storage_calls_of l1 ++ storage_calls_of l2.
Proof. apply omap_app. Qed.

Lemma removals_snoc l ev :
  (forall d, ev <> ERmtree d) -> removals_of (l ++ [ev]) = removals_of l.
Proof.
  intros Hev. rewrite removals_of_app.
  destruct ev; cbn; rewrite ?app_nil_r; try done. by destruct (Hev dir).
Qed.

Lemma add_columns_no_removal table cols : forall w r w',
  add_columns b table cols w = (r, w') ->
  removals_of (log w') = removals_of (log w).
Proof.
  induction cols as [|c cols IH]; intros w r w' Hrun.
  - by injection Hrun as _ <-.
  - cbn [add_columns] in Hrun. unfold bind at 1, call at 1 in Hrun.
    destruct (add_text_column b table c (ext w)) as [[[]|e] s1].
    + apply IH in Hrun. rewrite Hrun. cbn [log]. by apply removals_snoc.
    + injection Hrun as _ <-. cbn [log]. by apply removals_snoc.
Qed.

Lemma ensure_columns_no_removal table headers w r w' :
  ensure_columns b table headers w = (r, w') ->
  removals_of (log w') = removals_of (log w).
Proof.
  unfold ensure_columns. unfold bind at 1, call at 1.
  destruct (get_column_names b table (ext w)) as [[data|e] s1].
  2:{ intros [= _ <-]. cbn [log]. by apply removals_snoc. }
  destruct (new_columns (existing_columns data) headers) as [|c cols].
  { intros [= _ <-]. cbn [log]. by apply removals_snoc. }
  unfold bind at 1, emit at 1. unfold bind at 1.
  destruct (add_columns b table (c :: cols) _) as [[[]|e] w2] eqn:Hadd;
    apply add_columns_no_removal in Hadd; cbn [log] in Hadd;
    rewrite !removals_snoc in Hadd by done.
  2:{ by intros [= _ <-]. }
  unfold bind at 1, call at 1.
  destruct (reload_schema_cache b (ext w2)) as [[[]|e] s3].
  - unfold emit. intros [= _ <-]. cbn [log].
    by rewrite !removals_snoc by done.
  - intros [= _ <-]. cbn [log]. by rewrite !removals_snoc by done.
Qed.

Lemma upsert_batches_no_removal table bs : forall errors w r w',
  upsert_batches b table bs errors w = (r, w') ->
  removals_of (log w') = removals_of (log w).
Proof.
  induction bs as [|batch bs IH]; intros errors w r w' Hrun.
  - by injection Hrun as _ <-.
  - cbn [upsert_batches] in Hrun. unfold bind at 1, call at 1 in Hrun.
    destruct (upsert b table batch (ext w)) as [[[cause|]|e] s1].
    + unfold bind at 1, emit at 1 in Hrun. apply IH in Hrun.
      rewrite Hrun. cbn [log]. by rewrite !removals_snoc by done.
    + apply IH in Hrun. rewrite Hrun. cbn [log]. by apply removals_snoc.
    + injection Hrun as _ <-. cbn [log]. by apply removals_snoc.
Qed.

Lemma ingest_file_no_removal data_dir fname table ctx w r w' :
  ingest_file b data_dir fname table ctx w = (r, w') ->
  removals_of (log w') = removals_of (log w).
Proof.
  intros Hrun. destruct (data_dir !! fname) as [f|] eqn:Hf.
  - destruct (ensure_columns b table (fieldnames f) w) as [[[]|e] w1] eqn:Hrec;
      pose proof (ensure_columns_no_removal _ _ _ _ _ Hrec) as Hr1.
    + rewrite (ingest_file_after_reconcile _ _ _ _ _ _ _ _ Hf Hrec) in Hrun.
      cbv zeta in Hrun.
      destruct (upsert_batches _ _ _ _ _) as [[errors|e] w2] eqn:Hup;
        apply upsert_batches_no_removal in Hup;
        injection Hrun as _ <-; cbn [log];
        rewrite ?removals_snoc by done; congruence.
    + rewrite (ingest_file_reconcile_raises _ _ _ _ _ _ _ _ _ Hf Hrec) in Hrun.
      by injection Hrun as _ <-.
  - rewrite (ingest_file_missing _ _ _ _ _ _ Hf) in Hrun.
    injection Hrun as _ <-. cbn [log]. by apply removals_snoc.
Qed.

Lemma ingest_files_no_removal data_dir ctx files : forall total w r w',
  ingest_files b data_dir ctx files total w = (r, w') ->
  removals_of (log w') = removals_of (log w).
Proof.
  induction files as [|[fname table] files IH]; intros total w r w' Hrun.
  - by injection Hrun as _ <-.
  - cbn [ingest_files] in Hrun. unfold bind at 1 in Hrun.
    destruct (ingest_file b data_dir fname table ctx w) as [[k|e] w1] eqn:Hfile;
      apply ingest_file_no_removal in Hfile.
    + apply IH in Hrun. congruence.
    + injection Hrun as _ <-. done.
Qed.

Lemma download_no_removal y qn w r w' :
  download_and_extract b y qn w = (r, w') ->
  removals_of (log w') = removals_of (log w).
Proof.
  unfold download_and_extract. unfold bind at 1, lift at 1.
  destruct (quarter_url y qn) as [url|e]; [|by intros [= _ <-]].
  unfold bind at 1, emit at 1. unfold bind at 1, call at 1. cbn [ext log].
  destruct (fetch b url (ext w)) as [[x|e] s1].
  - unfold bind at 1, lift at 1.
    destruct (resolve_data_dir x); intros [= _ <-]; cbn [log];
      by rewrite !removals_snoc by done.
  - intros [= _ <-]. cbn [log]. by rewrite !removals_snoc by done.
Qed.

End Removals.

(** X15: once the archive of a period has been obtained, its temporary
    directory is removed exactly once, whether the ingestion of its files
    returns or raises, and after the removal nothing is sent to the storage
    service any more. *)
Theorem import_quarter_removes_tmp {S} (b : Backend S) q y qn tmp_ dir url
  w wd r w' :
  parse_quarter q = Ok (y, qn) ->
  download_and_extract b y qn
    (Build_World (ext w) (log w ++ [EPrint (LBanner q)]))
  = (Ok (tmp_, dir, url), wd) ->
  import_quarter b q w = (r, w') ->
  removals_of (log w') = removals_of (log w) ++ [tmp_]
  /\ exists before after,
       log w' = before ++ ERmtree tmp_ :: after
       /\ storage_calls_of after = [].
Proof.
  intros Hparse Hdl Hrun.
  rewrite (import_quarter_with_archive _ _ _ _ _ _ _ _ _ Hparse Hdl) in Hrun.
  pose proof (download_no_removal _ _ _ _ _ _ Hdl) as Hd. cbn [log] in Hd.
  rewrite removals_snoc in Hd by done.
  destruct (ingest_files _ _ _ _ _ _) as [[total|e] w1] eqn:Hfiles;
    apply ingest_files_no_removal in Hfiles;
    injection Hrun as _ <-; cbn [log]; rewrite removals_of_app; split.
  - cbn. congruence.
  - by exists (log w1), [EPrint (LComplete total q)].
  - cbn. congruence.
  - by exists (log w1), [].
Qed.

Lemma import_quarter_removes_tmp_witness :
  let run := import_quarter (faulty_backend assets_rejected) "2025-Q3"
               (Build_World two_table_store []) in
  run.1 = Raise (Raised "SchemaMutationError")
  /\ removals_of (log run.2) = ["/tmp/ncua-bronze"].
Proof.
  intros run.
  set (b := faulty_backend assets_rejected).
  set (dl := download_and_extract b 2025 3
               (Build_World two_table_store [EPrint (LBanner "2025-Q3")])).
  split; [vm_compute; reflexivity|].
  destruct (import_quarter_removes_tmp b "2025-Q3" 2025 3
              (tmp two_file_archive) (top two_file_archive) url_2025Q3
              (Build_World two_table_store []) dl.2 run.1 run.2)
    as [Hrm _].
  - reflexivity.
  - rewrite (surjective_pairing dl). f_equal; reflexivity.
  - apply surjective_pairing.
  - exact Hrm.
Defined.
(* ===================================================================== *)
(** ** Further properties: latest quarter, environment *)
(* ===================================================================== *)

Lemma previous_quarter_index y q :
  1 <= q <= 4 ->
  (if q - 1 <? 1 then (y - 1, 4) else (y, q - 1))
  = quarter_at (quarter_index y q - 1).
Proof.
  intros Hq. destruct (q - 1 <? 1) eqn:Hw.
  - apply Z.ltb_lt in Hw.
    replace (quarter_index y q - 1) with (quarter_index (y - 1) 4)
      by (unfold quarter_index; lia).
    by rewrite quarter_at_index.
  - apply Z.ltb_ge in Hw.
    replace (quarter_index y q - 1) with (quarter_index y (q - 1))
      by (unfold quarter_index; lia).
    by rewrite quarter_at_index by lia.
Qed.

Lemma probed_S y q n :
  1 <= q <= 4 ->
  probed y q (S n)
  = (y, q) :: probed (quarter_at (quarter_index y q - 1)).1
                (quarter_at (quarter_index y q - 1)).2 n.
Proof.
  intros Hq. unfold probed. cbn [seq]. rewrite fmap_cons.
  rewrite Z.sub_0_r, quarter_at_index by done. f_equal.
  rewrite <- seq_shift, <- list_fmap_compose.
  apply list_fmap_ext. intros _ k _. unfold compose.
  assert (Hidx : forall i, quarter_index (quarter_at i).1 (quarter_at i).2 = i).
  { intros i. unfold quarter_index, quarter_at. cbn.
    pose proof (Z.div_mod i 4 ltac:(lia)). lia. }
  rewrite Hidx. f_equal. lia.
Qed.

Lemma detect_latest_loop_find status_200 n : forall y q,
  1 <= q <= 4 ->
  (detect_latest_loop status_200 n y q).1 =
    match List.find (available status_200) (probed y q n) with
    | Some p => Ok (quarter_label p.1 p.2)
    | None => Raise (SystemExit no_quarter_msg)
    end.
Proof.
  induction n as [|n IH]; intros y q Hq; [done|].
  rewrite probed_S by done. cbn [List.find detect_latest_loop].
  unfold available at 1. cbn [fst snd].
  destruct (quarter_url y q) as [url|e] eqn:Hurl.
  2:{ unfold quarter_url, QUARTER_MONTH in Hurl.
      repeat case_decide; try discriminate; lia. }
  destruct (status_200 url); [done|].
  pose proof (previous_quarter_index y q Hq) as Hprev.
  destruct (quarter_at_bounds (quarter_index y q - 1) (y - 1) y)
    as [_ Hb]; [unfold quarter_index; lia|].
  rewrite <- (IH _ _ Hb). rewrite <- Hprev.
  by destruct (q - 1 <? 1).
Qed.

(** X16: [detect_latest] probes the quarter of the probe date and the three
    quarters before it, most recent first and across the year boundary, and
    returns the label of the first one whose archive answers; when none of
    the four does, it exits. *)
Theorem detect_latest_most_recent status_200 probe_year probe_month :
  1 <= probe_month <= 12 ->
  (detect_latest status_200 probe_year probe_month).1 =
    match List.find (available status_200)
            (probed probe_year ((probe_month - 1) `div` 3 + 1) 4) with
    | Some p => Ok (quarter_label p.1 p.2)
    | None => Raise (SystemExit no_quarter_msg)
    end.
Proof.
  intros Hm. unfold detect_latest. apply detect_latest_loop_find.
  pose proof (Z.div_mod (probe_month - 1) 3 ltac:(lia)).
  pose proof (Z.mod_pos_bound (probe_month - 1) 3 ltac:(lia)). lia.
Qed.

Lemma detect_latest_most_recent_witness :
  (detect_latest only_2025Q3 2026 2).1 = Ok "2025-Q3".
Proof.
  rewrite detect_latest_most_recent by lia. vm_compute. reflexivity.
Defined.

Lemma starts_with_spec p s :
  starts_with p s = true <-> exists post, s = p +:+ post.
Proof.
  revert s. induction p as [|a p IH]; intros s; cbn.
  - split; [eauto|done].
  - destruct s as [|b s].
    + split; [done|]. intros [post Hpost]. discriminate.
    + rewrite andb_true_iff, bool_decide_eq_true, IH. split.
      * intros [-> [post ->]]. eauto.
      * intros [post [= -> ->]]. eauto.
Qed.

Lemma contains_spec sub s :
  contains sub s = true <-> exists pre post, s = pre +:+ sub +:+ post.
Proof.
  induction s as [|b s IH]; cbn [contains]; rewrite orb_true_iff.
  - rewrite starts_with_spec. split.
    + intros [[post Hpost]|?]; [|done]. by exists EmptyString, post.
    + intros (pre & post & Hs). left. destruct pre; [|discriminate].
      by exists post.
  - rewrite starts_with_spec, IH. split.
    + intros [[post Hpost]|(pre & post & ->)].
      * by exists EmptyString, post.
      * by exists (String b pre), post.
    + intros (pre & post & Hs). destruct pre as [|c pre].
      * left. by exists post.
      * right. injection Hs as -> ->. eauto.
Qed.

(** X17: [load_env] hands out a URL and key only when both are non-empty
    and the URL contains one of the allowed project references. *)
Theorem load_env_allow_list root_path path_exists environ env_file url key :
  load_env root_path path_exists environ env_file = Ok (url, key) ->
  url <> EmptyString /\ key <> EmptyString
  /\ exists ref pre post,
       ref ∈ ALLOWED_PROJECTS /\ url = pre +:+ ref +:+ post.
Proof.
  unfold load_env.
  match goal with
  | |- match ?l with _ => _ end = _ -> _ => destruct l as [file|e]
  end; [|discriminate].
  cbv zeta.
  destruct (bool_decide (_ = EmptyString) || bool_decide (_ = EmptyString))
    eqn:Hempty; [discriminate|].
  destruct (existsb _ ALLOWED_PROJECTS) eqn:Hallowed; [|discriminate].
  cbn [negb]. intros [= <- <-].
  apply orb_false_elim in Hempty as [Hu%bool_decide_eq_false
                                       Hk%bool_decide_eq_false].
  split_and!; [done|done|].
  apply existsb_exists in Hallowed as (ref & Hin & Hc).
  apply contains_spec in Hc as (pre & post & Hc).
  exists ref, pre, post. split; [by apply list_elem_of_In|done].
Qed.

Lemma load_env_allow_list_witness :
  load_env (fun name => name) (fun _ => false) quoted_environ None
  = Ok ("https://jhlkpogfkytfedqupytv.supabase.co", "service-key")
  /\ exists ref pre post,
       ref ∈ ALLOWED_PROJECTS
       /\ "https://jhlkpogfkytfedqupytv.supabase.co" = pre +:+ ref +:+ post.
Proof.
  assert (H : load_env (fun name => name) (fun _ => false) quoted_environ None
              = Ok ("https://jhlkpogfkytfedqupytv.supabase.co", "service-key"))
    by (vm_compute; reflexivity).
  split; [exact H|].
  by destruct (load_env_allow_list _ _ _ _ _ _ H) as (_ & _ & Hsub).
Defined.
